(** * Job portal: a shallow embedding of the Express application

    The development follows the three source files of the repository:
    the main application (routes, validators, upload filter, start-up),
    the [config/database.js] variant of the authentication wiring, and
    the Mongoose [User] schema.

    JavaScript values are modelled as follows.
    - A string is a [string]; each [ascii] stands for one UTF-16 code unit
      below 256 (the ISO-8859-1 range), on which [toLowerCase] and [trim]
      are closed.
    - A form field or query parameter that may be missing is an
      [option string] ([None] is [undefined]).
    - An array is a [list]; [Array.prototype.filter], [slice], [push] and
      [includes] are written out below.
    - An exception is the [Throw] case of the result type [Exc]. *)

From Stdlib Require Import Bool Arith ZArith Lia List Ascii String.
Import ListNotations.

Open Scope string_scope.
Open Scope list_scope.

(** ** JavaScript primitives *)

Module JS.

(** Thrown values the routes can meet. *)
Inductive error : Type :=
| TypeError            (* property access on [undefined] *)
| BcryptError          (* bcryptjs: illegal arguments *)
| ValidationError      (* Mongoose schema validation *)
| DuplicateKeyError    (* unique index violation, E11000 *)
| DbError              (* the database cannot be reached *)
| MulterError (code : string)   (* [multer.MulterError] *)
| JsError (message : string).   (* [new Error(message)] *)

Inductive Exc (A : Type) : Type :=
| Ok (a : A)
| Throw (e : error).
Arguments Ok {A} a.
Arguments Throw {A} e.

Definition bind {A B} (m : Exc A) (k : A -> Exc B) : Exc B :=
  match m with
  | Ok a => k a
  | Throw e => Throw e
  end.

Notation "x <- m ;; k" := (bind m (fun x => k))
  (at level 100, m at next level, right associativity).

(** [v.prop] on a possibly [undefined] receiver [v]. *)
Definition deref {A} (v : option A) : Exc A :=
  match v with
  | Some a => Ok a
  | None => Throw TypeError
  end.

(** Truthiness of a possibly missing string: [undefined] and the empty
    string are falsy. *)
Definition truthy (v : option string) : bool :=
  match v with
  | Some s => negb (s =? "")
  | None => false
  end.

(** [String.prototype.toLowerCase] on code units below 256: A-Z and the
    accented capitals U+00C0..U+00DE (without the multiplication sign
    U+00D7) move up by 32. *)
Definition char_to_lower (c : ascii) : ascii :=
  let n := N_of_ascii c in
  if ((65 <=? n) && (n <=? 90) ||
      (192 <=? n) && (n <=? 222) && negb (n =? 215))%N
  then ascii_of_N (n + 32)
  else c.

Fixpoint toLowerCase (s : string) : string :=
  match s with
  | EmptyString => EmptyString
  | String c s' => String (char_to_lower c) (toLowerCase s')
  end.

(** White space and line terminators below 256. *)
Definition is_space (c : ascii) : bool :=
  let n := N_of_ascii c in
  ((9 <=? n) && (n <=? 13) || (n =? 32) || (n =? 160))%N.

Fixpoint trimStart (s : string) : string :=
  match s with
  | EmptyString => EmptyString
  | String c s' => if is_space c then trimStart s' else s
  end.

Fixpoint trimEnd (s : string) : string :=
  match s with
  | EmptyString => EmptyString
  | String c s' =>
      let r := trimEnd s' in
      if is_space c && (r =? "") then EmptyString else String c r
  end.

Definition trim (s : string) : string := trimEnd (trimStart s).

(** [s.startsWith(t)]. *)
Fixpoint startsWith (t s : string) : bool :=
  match t, s with
  | EmptyString, _ => true
  | String _ _, EmptyString => false
  | String a t', String b s' => Ascii.eqb a b && startsWith t' s'
  end.

(** [s.includes(t)]: [t] occurs in [s] at some position. *)
Fixpoint includes (t s : string) : bool :=
  startsWith t s ||
  match s with
  | EmptyString => false
  | String _ s' => includes t s'
  end.

(** [arr.includes(x)] on an array of strings. *)
Definition array_includes (arr : list string) (x : string) : bool :=
  existsb (String.eqb x) arr.

(** [Array.prototype.filter] with a callback that may throw: the elements
    are visited in order and the first exception aborts the call. *)
Fixpoint filterE {A} (f : A -> Exc bool) (l : list A) : Exc (list A) :=
  match l with
  | [] => Ok []
  | x :: l' =>
      b <- f x ;;
      r <- filterE f l' ;;
      Ok (if b then x :: r else r)
  end.

(** [Array.prototype.slice(start, end)] for integer arguments: negative
    arguments count from the end, both are clamped to [0, length]. *)
Definition slice {A} (l : list A) (start end_ : Z) : list A :=
  let len := Z.of_nat (List.length l) in
  let k := if (start <? 0)%Z then Z.max (len + start) 0 else Z.min start len in
  let final := if (end_ <? 0)%Z then Z.max (len + end_) 0 else Z.min end_ len in
  firstn (Z.to_nat (final - k)) (skipn (Z.to_nat k) l).

(** [Math.ceil(n / d)] for a non-negative integer [n] and a positive
    integer [d]; array lengths stay below 2^32, where the floating-point
    quotient rounds to the same integer. *)
Definition ceil_div (n d : Z) : Z := (- ((- n) / d))%Z.

End JS.

Import JS.

(** ** Data model *)

(** A stored user document ([models/User.js]); the profile fields that no
    route reads or writes (bio, skills, experience, ...) are left out. *)
Module User.
Record t : Type := mk {
  id : string;              (* the document's ObjectId, as [user.id] reads it *)
  name : string;
  email : string;
  password : string;        (* the bcrypt hash *)
  role : string;
  avatar : option string    (* [None] is [null] *)
}.

(** The object handed to [new User({...})] by the register handlers. *)
Record fields : Type := mkFields {
  f_name : option string;
  f_email : string;
  f_password : string;
  f_role : string;
  f_avatar : option string
}.
End User.

(** A job posting as the post-job handler builds it: the text fields are
    copied from [req.body] and may be [undefined]. *)
Module Job.
Record t : Type := mk {
  id : Z;                   (* [Date.now()] *)
  userId : string;          (* [req.user.id] *)
  title : option string;
  company : option string;
  description : option string;
  requirements : option string;
  location : option string;
  createdAt : Z
}.
End Job.

(** ** The User schema and the user collection *)

Module UserModel.

(** [email: { lowercase: true, trim: true }]: both setters run on
    assignment. *)
Definition email_setter (s : string) : string := trim (toLowerCase s).

(** [role: { enum: [...] }]. *)
Definition role_enum : list string := ["jobseeker"; "employer"; "admin"].

(** [required: true] on a string path rejects [undefined] and the empty
    string. *)
Definition required_ok (v : option string) : bool := truthy v.

(** [new User(obj)] followed by the validation that [save()] runs first:
    setters applied, then [required] on name, email and password and the
    [enum] on role. *)
Definition build (oid : string) (o : User.fields) : Exc User.t :=
  let e := email_setter (User.f_email o) in
  if required_ok (User.f_name o)
     && required_ok (Some e)
     && required_ok (Some (User.f_password o))
     && array_includes role_enum (User.f_role o)
  then
    match User.f_name o with
    | Some n =>
        Ok (User.mk oid n e (User.f_password o) (User.f_role o) (User.f_avatar o))
    | None => Throw ValidationError
    end
  else Throw ValidationError.

(** The collection behind the model: the documents in insertion order, and
    whether the server can be reached when an operation is awaited. *)
Record Db : Type := mkDb {
  reachable : bool;
  users : list User.t
}.

Section Queries.

(** Depending on its version and options, Mongoose casts a query filter
    with the schema's setters or takes the string as given.  Both
    behaviours are covered. *)
Variable runSettersOnQuery : bool.

Definition cast_email_query (q : string) : string :=
  if runSettersOnQuery then email_setter q else q.

(** [User.findOne({ email: q })]. *)
Definition findOne (db : Db) (q : string) : Exc (option User.t) :=
  if reachable db
  then Ok (find (fun u => User.email u =? cast_email_query q) (users db))
  else Throw DbError.

End Queries.

(** [doc.save()] for a new document: validation, then the insert, which
    the unique index on email refuses for a second document with the same
    email. *)
Definition save (db : Db) (oid : string) (o : User.fields) : Exc Db :=
  doc <- build oid o ;;
  if negb (reachable db) then Throw DbError
  else if existsb (fun u => User.email u =? User.email doc) (users db)
  then Throw DuplicateKeyError
  else Ok (mkDb (reachable db) (users db ++ [doc])).

End UserModel.

(** ** External libraries

    bcryptjs and Node's [path] module are not part of the repository; the
    routes are verified for every behaviour of their functions. *)
Record Libs : Type := mkLibs {
  bcrypt_hash : string -> string -> string;      (* [bcrypt.hash(data, salt)] *)
  bcrypt_compare : string -> string -> bool;     (* [bcrypt.compare(data, hash)] *)
  path_extname : string -> string;               (* [path.extname(p)] *)
  runSettersOnQuery : bool
}.

(** ** What a handler sends back *)

Record pagination : Type := mkPagination {
  current : Z;
  total : Z;
  hasNext : bool;
  hasPrev : bool
}.

Inductive view : Type :=
| IndexView (jobs : list Job.t)
| JobsView (jobs : list Job.t) (pg : pagination).

Inductive response : Type :=
| Redirect (url : string)
| Render (template : string) (v : view)
| NextError (e : error).        (* [next(error)]: the central error handler *)

(** A reply: the flash messages queued, as (type, message) pairs in the
    order of the calls, and the response. *)
Record reply : Type := mkReply {
  flashed : list (string * string);
  resp : response
}.

(** [req.flash(type, msgs)] with an array queues every element. *)
Definition flash_all (type : string) (msgs : list string) : list (string * string) :=
  map (fun m => (type, m)) msgs.

(** The outcome a passport verify callback reports through [done]. *)
Inductive done : Type :=
| DoneUser (user : User.t)            (* [done(null, user)] *)
| DoneFail (message : string)         (* [done(null, false, { message })] *)
| DoneError (e : error).              (* [done(error)] *)

(** ** Requests *)

(** The fields of [req.body] that the post-job route reads, for a body
    of text fields: every field a string or absent, as the HTML form
    sends them.  The body parsers also deliver numbers and arrays; such
    bodies are read in [Wide]. *)
Module JobBody.
Record t : Type := mk {
  title : option string;
  company : option string;
  description : option string;
  requirements : option string;
  location : option string
}.
End JobBody.

(** The fields of [req.body] that the register route reads. *)
Module RegisterBody.
Record t : Type := mk {
  name : option string;
  email : option string;
  password : option string;
  confirmPassword : option string;
  role : option string
}.
End RegisterBody.

(** [req.query] of the job search, for parameters given at most once
    (a repeated parameter is an array, on which [toLowerCase] fails).
    [page] is [None] when the parameter is missing and [Some p] when its
    text reads as the integer [p]. *)
Module Query.
Record t : Type := mk {
  search : option string;
  location : option string;
  page : option Z
}.
End Query.

(** [a === b] on values that are strings or [undefined]. *)
Definition strict_eq (a b : option string) : bool :=
  match a, b with
  | Some x, Some y => x =? y
  | None, None => true
  | _, _ => false
  end.

(** [v || d] on a string or [undefined]. *)
Definition or_default (v : option string) (d : string) : string :=
  match v with
  | Some s => if s =? "" then d else s
  | None => d
  end.

(** ** File uploads (multer) *)

Module Upload.

Record File : Type := mkFile {
  fieldname : string;
  originalname : string;
  mimetype : string;        (* as declared by the client *)
  content : string
}.

(** The disk: the files written so far, as (path, content). *)
Definition disk : Type := list (string * string).

Record options : Type := mkOptions {
  fileFilter : File -> Exc bool;
  destination : File -> string;
  filename : string -> File -> string;   (* first argument: [Date.now()] in decimal *)
  fileSize : N                           (* [limits.fileSize], in bytes *)
}.

(** [upload.single(field)]: multer calls the file filter first and hands
    the stream to the storage engine only when the filter accepts; a
    stream that passes the size limit is cut off and its partial file is
    removed.  The result is [req.file.filename], if a file was stored. *)
Definition single (o : options) (field : string) (stamp : string)
    (d : disk) (f : option File) : Exc (option string) * disk :=
  match f with
  | None => (Ok None, d)
  | Some file =>
      if negb (fieldname file =? field)
      then (Throw (MulterError "LIMIT_UNEXPECTED_FILE"), d)
      else
        match fileFilter o file with
        | Throw e => (Throw e, d)
        | Ok false => (Ok None, d)
        | Ok true =>
            if (fileSize o <? N.of_nat (String.length (content file)))%N
            then (Throw (MulterError "LIMIT_FILE_SIZE"), d)
            else
              let name := filename o stamp file in
              (Ok (Some name),
               d ++ [((destination o file ++ "/" ++ name)%string, content file)])
        end
  end.

End Upload.

(** ** Process start-up *)

(** The process as the start-up code sees it: how many times
    [mongoose.connect] has been called, the console, the middleware
    mounted on the application, and the exit status once [process.exit]
    has run. *)
Module Proc.
Record t : Type := mk {
  connects : nat;
  console : list string;
  mounted : list string;
  exited : option Z
}.

Definition log (line : string) (w : t) : t :=
  mk (connects w) (console w ++ [line]) (mounted w) (exited w).

Definition use (what : string) (w : t) : t :=
  mk (connects w) (console w) (mounted w ++ [what]) (exited w).

(** [process.exit(code)]. *)
Definition exit (code : Z) (w : t) : t :=
  mk (connects w) (console w) (mounted w) (Some code).

(** [await mongoose.connect(uri)]: the network decides the outcome of the
    k-th call. *)
Definition mongoose_connect (network : nat -> bool) (w : t) : Exc unit * t :=
  let w' := mk (S (connects w)) (console w) (mounted w) (exited w) in
  if network (connects w) then (Ok tt, w') else (Throw DbError, w').
End Proc.

(** ** The main application *)

Module App.

Section Routes.
Variable L : Libs.

(** [connectDB]. *)
Definition connectDB (network : nat -> bool) (w : Proc.t) : Proc.t :=
  match Proc.mongoose_connect network w with
  | (Ok _, w1) => Proc.log "Connected to MongoDB Atlas" w1
  | (Throw _, w1) => Proc.exit 1 (Proc.log "MongoDB connection error:" w1)
  end.

(** The verify callback of the local strategy. *)
Definition verify (db : UserModel.Db) (email password : string) : done :=
  match UserModel.findOne (runSettersOnQuery L) db (toLowerCase email) with
  | Throw error => DoneError error
  | Ok None => DoneFail "Incorrect email or password"
  | Ok (Some user) =>
      if bcrypt_compare L password (User.password user)
      then DoneUser user
      else DoneFail "Incorrect email or password"
  end.

(** The multer instance [upload]. *)
Definition allowedTypes : list string :=
  ["image/jpeg"; "image/png"; "application/pdf"].

Definition fileFilter (file : Upload.File) : Exc bool :=
  if negb (array_includes allowedTypes (Upload.mimetype file))
  then Throw (JsError "Invalid file type")
  else Ok true.

Definition upload : Upload.options :=
  Upload.mkOptions
    fileFilter
    (fun file =>
       if Upload.fieldname file =? "resume"
       then "public/uploads/resumes" else "public/uploads/avatars")
    (fun stamp file => (stamp ++ "-" ++ Upload.originalname file)%string)
    (5 * 1024 * 1024)%N.

(** [isAuthenticated]: [None] stands for the call of [next()]. *)
Definition isAuthenticated (user : option User.t) : option reply :=
  match user with
  | Some _ => None
  | None =>
      Some (mkReply [("error", "Please sign in to continue")]
                    (Redirect "/auth/login"))
  end.

(** The [errors] array that [validateJob] builds, on text fields. *)
Definition validate_errors (body : JobBody.t) : list string :=
  (match JobBody.title body with
   | None => ["Title must be at least 3 characters"]
   | Some title =>
       if (title =? "") || (String.length title <? 3)%nat
       then ["Title must be at least 3 characters"] else []
   end) ++
  (if negb (truthy (JobBody.company body))
   then ["Company name is required"] else []) ++
  (match JobBody.description body with
   | None => ["Description must be at least 10 characters"]
   | Some description =>
       if (description =? "") || (String.length description <? 10)%nat
       then ["Description must be at least 10 characters"] else []
   end).

Definition validateJob (body : JobBody.t) : option reply :=
  let errors := validate_errors body in
  if (0 <? List.length errors)%nat
  then Some (mkReply (flash_all "error" errors) (Redirect "/employer/post-job"))
  else None.

(** [GET /]. *)
Definition index (jobs : list Job.t) (user : option User.t) : reply :=
  let userJobs :=
    filter (fun job =>
              match user with
              | None => true
              | Some u => Job.userId job =? User.id u
              end) jobs in
  mkReply [] (Render "index" (IndexView userJobs)).

(** [POST /auth/register], the handler proper: it runs once
    [upload.single('avatar')] has passed the request on, with [file] the
    stored file's name when one was uploaded.  [oid] is the fresh
    ObjectId and [salt] the result of [bcrypt.genSalt(10)]. *)
Definition register (db : UserModel.Db) (body : RegisterBody.t)
    (file : option string) (oid salt : string) : reply * UserModel.Db :=
  if negb (strict_eq (RegisterBody.password body)
                     (RegisterBody.confirmPassword body))
  then (mkReply [("error", "Passwords do not match")]
                (Redirect "/auth/register"), db)
  else
    let attempt : Exc (reply * UserModel.Db) :=
      email <- deref (RegisterBody.email body) ;;
      existingUser <- UserModel.findOne (runSettersOnQuery L) db
                        (toLowerCase email) ;;
      match existingUser with
      | Some _ =>
          Ok (mkReply [("error", "Email already registered")]
                      (Redirect "/auth/register"), db)
      | None =>
          hashedPassword <-
            match RegisterBody.password body with
            | Some password => Ok (bcrypt_hash L password salt)
            | None => Throw BcryptError
            end ;;
          let newUser :=
            User.mkFields
              (RegisterBody.name body)
              (toLowerCase email)
              hashedPassword
              (or_default (RegisterBody.role body) "jobseeker")
              (Some match file with
                    | Some filename => ("/uploads/avatars/" ++ filename)%string
                    | None => "/images/default-avatar.png"
                    end) in
          db' <- UserModel.save db oid newUser ;;
          Ok (mkReply [("success", "Registration successful! You can now log in")]
                      (Redirect "/auth/login"), db')
      end in
    match attempt with
    | Ok r => r
    | Throw error => (mkReply [] (NextError error), db)
    end.

(** [POST /employer/post-job] behind [isAuthenticated] and [validateJob].
    [now] is [Date.now()] and [created] is [new Date()]. *)
Definition post_job (jobs : list Job.t) (user : option User.t)
    (body : JobBody.t) (now created : Z) : reply * list Job.t :=
  match isAuthenticated user with
  | Some r => (r, jobs)
  | None =>
      match validateJob body with
      | Some r => (r, jobs)
      | None =>
          match user with
          | None => (mkReply [] (NextError TypeError), jobs)
          | Some u =>
              let job :=
                Job.mk now (User.id u)
                       (JobBody.title body) (JobBody.company body)
                       (JobBody.description body) (JobBody.requirements body)
                       (JobBody.location body) created in
              (mkReply [("success", "Job posted successfully!")]
                       (Redirect "/jobs"), jobs ++ [job])
          end
      end
  end.

(** The two filter callbacks of [GET /jobs], on text fields. *)
Definition matches_search (search : string) (job : Job.t) : Exc bool :=
  title <- deref (Job.title job) ;;
  if includes (toLowerCase search) (toLowerCase title) then Ok true
  else
    description <- deref (Job.description job) ;;
    Ok (includes (toLowerCase search) (toLowerCase description)).

Definition matches_location (location : string) (job : Job.t) : Exc bool :=
  loc <- deref (Job.location job) ;;
  Ok (includes (toLowerCase location) (toLowerCase loc)).

(** [if (v) { arr = arr.filter(f(v)) }]. *)
Definition filter_if (v : option string) (f : string -> Job.t -> Exc bool)
    (arr : list Job.t) : Exc (list Job.t) :=
  match v with
  | Some s => if negb (s =? "") then filterE (f s) arr else Ok arr
  | None => Ok arr
  end.

Definition filter_jobs (jobs : list Job.t) (q : Query.t) : Exc (list Job.t) :=
  filteredJobs <- filter_if (Query.search q) matches_search jobs ;;
  filter_if (Query.location q) matches_location filteredJobs.

(** [GET /jobs]. *)
Definition get_jobs (jobs : list Job.t) (q : Query.t) : reply :=
  let page := match Query.page q with Some p => p | None => 1%Z end in
  let limit := 10%Z in
  let skip := ((page - 1) * limit)%Z in
  match filter_jobs jobs q with
  | Throw error => mkReply [] (NextError error)
  | Ok filteredJobs =>
      let totalJobs := Z.of_nat (List.length filteredJobs) in
      let totalPages := ceil_div totalJobs limit in
      mkReply []
        (Render "jobs"
           (JobsView (slice filteredJobs skip (skip + limit))
              (mkPagination page totalPages
                 (page <? totalPages)%Z (page >? 1)%Z)))
  end.

End Routes.
End App.

(** ** The [config/database.js] variant *)

Module Config.

Section Routes.
Variable L : Libs.
(** [path.join(__dirname, '../public/uploads')]. *)
Variable uploadDir : string.

(** [connectDB(app)]: the session, passport, upload and route set-up all
    sit inside the [try] block, after the connection.  This is the run in
    which every set-up call returns; [connectDB_app] below is the function
    with set-up calls that may throw. *)
Definition connectDB (network : nat -> bool) (w : Proc.t) : Proc.t :=
  match Proc.mongoose_connect network w with
  | (Ok _, w1) =>
      Proc.use "configureAuthRoutes"
        (Proc.use "configureFileUpload"
           (Proc.use "configurePassport"
              (Proc.use "session"
                 (Proc.log "Connected to MongoDB Atlas" w1))))
  | (Throw _, w1) => Proc.exit 1 (Proc.log "MongoDB connection error:" w1)
  end.

(** The four set-up calls of the [try] block, in order. *)
Definition set_up : list string :=
  ["session"; "configurePassport"; "configureFileUpload";
   "configureAuthRoutes"].

(** The set-up calls one after the other; [setup what] tells whether the
    call returns ([fs.mkdirSync] in [configureFileUpload] can throw, for
    one).  The first call that throws leaves the [try] block. *)
Fixpoint mount (setup : string -> bool) (steps : list string) (w : Proc.t)
    : Exc unit * Proc.t :=
  match steps with
  | [] => (Ok tt, w)
  | what :: rest =>
      if setup what then mount setup rest (Proc.use what w)
      else (Throw (JsError what), w)
  end.

(** [connectDB(app)] with set-up calls that may throw: the [catch] block
    is the same for a failed connection and for a failed set-up call. *)
Definition connectDB_app (network : nat -> bool) (setup : string -> bool)
    (w : Proc.t) : Proc.t :=
  match Proc.mongoose_connect network w with
  | (Ok _, w1) =>
      match mount setup set_up (Proc.log "Connected to MongoDB Atlas" w1) with
      | (Ok _, w2) => w2
      | (Throw _, w2) =>
          Proc.exit 1 (Proc.log "MongoDB connection error:" w2)
      end
  | (Throw _, w1) => Proc.exit 1 (Proc.log "MongoDB connection error:" w1)
  end.

(** The verify callback of the local strategy. *)
Definition verify (db : UserModel.Db) (email password : string) : done :=
  match UserModel.findOne (runSettersOnQuery L) db (toLowerCase email) with
  | Throw error => DoneError error
  | Ok None => DoneFail "Incorrect email or password"
  | Ok (Some user) =>
      if bcrypt_compare L password (User.password user)
      then DoneUser user
      else DoneFail "Incorrect email or password"
  end.

(** [/jpeg|jpg|png|gif/.test(s)]: one of the alternatives occurs in [s]. *)
Definition filetypes_test (s : string) : bool :=
  includes "jpeg" s || includes "jpg" s || includes "png" s || includes "gif" s.

Definition fileFilter (file : Upload.File) : Exc bool :=
  let extname :=
    filetypes_test (toLowerCase (path_extname L (Upload.originalname file))) in
  let mimetype := filetypes_test (Upload.mimetype file) in
  if mimetype && extname
  then Ok true
  else Throw (JsError "Error: Images Only!").

Definition upload : Upload.options :=
  Upload.mkOptions
    fileFilter
    (fun _ => uploadDir)
    (fun stamp file => (stamp ++ "-" ++ Upload.originalname file)%string)
    5000000%N.

(** [POST /auth/register]; every exception ends in the same flash message
    and redirect. *)
Definition register (db : UserModel.Db) (body : RegisterBody.t)
    (file : option string) (oid salt : string) : reply * UserModel.Db :=
  if negb (strict_eq (RegisterBody.password body)
                     (RegisterBody.confirmPassword body))
  then (mkReply [("error", "Passwords do not match")]
                (Redirect "/auth/register"), db)
  else
    let attempt : Exc (reply * UserModel.Db) :=
      email <- deref (RegisterBody.email body) ;;
      existingUser <- UserModel.findOne (runSettersOnQuery L) db
                        (toLowerCase email) ;;
      match existingUser with
      | Some _ =>
          Ok (mkReply [("error", "Email already registered")]
                      (Redirect "/auth/register"), db)
      | None =>
          hashedPassword <-
            match RegisterBody.password body with
            | Some password => Ok (bcrypt_hash L password salt)
            | None => Throw BcryptError
            end ;;
          let newUser :=
            User.mkFields
              (RegisterBody.name body)
              (toLowerCase email)
              hashedPassword
              (or_default (RegisterBody.role body) "jobseeker")
              match file with
              | Some filename => Some ("/uploads/" ++ filename)%string
              | None => None
              end in
          db' <- UserModel.save db oid newUser ;;
          Ok (mkReply [("success", "Registration successful! You can now log in")]
                      (Redirect "/auth/login"), db')
      end in
    match attempt with
    | Ok r => r
    | Throw _ =>
        (mkReply [("error", "Server error, please try again")]
                 (Redirect "/auth/register"), db)
    end.

End Routes.
End Config.

(** ** The specification's vocabulary *)

Module Spec.

(** Case-insensitive substring match: some stretch of [s] equals [term]
    up to the case of its letters. *)
Definition ci_substring (term s : string) : Prop :=
  exists pre mid post : string,
    s = (pre ++ mid ++ post)%string /\ toLowerCase mid = toLowerCase term.

(** A field of a job matches a term when the field is there and the term
    occurs in it. *)
Definition field_matches (term : string) (field : option string) : Prop :=
  exists s, field = Some s /\ ci_substring term s.

(** The search filter in the specification's words: the free-text term, if
    supplied, matches the title or the description; the location term, if
    supplied, matches the location; both conditions when both are
    supplied. *)
Definition job_matches (q : Query.t) (job : Job.t) : Prop :=
  (forall term, Query.search q = Some term ->
     field_matches term (Job.title job) \/
     field_matches term (Job.description job)) /\
  (forall term, Query.location q = Some term ->
     field_matches term (Job.location job)).

(** The upload contexts and their allow-lists in the specification's
    words: image formats for avatars, image formats and PDF for resumes. *)
Inductive context : Type := Avatar | Resume.

Definition context_of (fieldname : string) : context :=
  if fieldname =? "resume" then Resume else Avatar.

Definition image_format (mime : string) : bool := startsWith "image/" mime.

Definition allowed (c : context) (mime : string) : bool :=
  match c with
  | Avatar => image_format mime
  | Resume => image_format mime || (mime =? "application/pdf")
  end.

(** What a job posting must carry: a title of at least 3 characters, a
    company, a description of at least 10 characters. *)
Definition title_ok (body : JobBody.t) : Prop :=
  exists t, JobBody.title body = Some t /\ 3 <= String.length t.

Definition company_ok (body : JobBody.t) : Prop :=
  exists c, JobBody.company body = Some c /\ c <> "".

Definition description_ok (body : JobBody.t) : Prop :=
  exists d, JobBody.description body = Some d /\ 10 <= String.length d.

(** The registration claim in its original words: the email of the stored
    record is the lower-cased input. *)
Definition stores_lowercased_input : Prop :=
  forall (L : Libs) (db : UserModel.Db) (body : RegisterBody.t)
         (file : option string) (oid salt e : string) (r : reply)
         (db' : UserModel.Db) (u : User.t),
    RegisterBody.email body = Some e ->
    App.register L db body file oid salt = (r, db') ->
    UserModel.users db' = UserModel.users db ++ [u] ->
    User.email u = toLowerCase e.

(** The upload claim in its original words: a file whose declared type is
    outside the allow-list of its context is refused and the disk is left
    as it was. *)
Definition rejects_outside_allow_list (o : Upload.options) : Prop :=
  forall (stamp : string) (d : Upload.disk) (file : Upload.File),
    allowed (context_of (Upload.fieldname file)) (Upload.mimetype file) = false ->
    exists e,
      Upload.single o (Upload.fieldname file) stamp d (Some file) = (Throw e, d).

(** A job that carries the fields a free-text term is matched against,
    and one that carries a location. *)
Definition has_text (job : Job.t) : Prop :=
  Job.title job <> None /\ Job.description job <> None.

Definition has_location (job : Job.t) : Prop :=
  Job.location job <> None.

(** The registries that the post-job route can build, starting from the
    empty one. *)
Inductive posted : list Job.t -> Prop :=
| posted_nil : posted []
| posted_step (jobs : list Job.t) (user : option User.t) (body : JobBody.t)
    (now created : Z) :
    posted jobs ->
    posted (snd (App.post_job jobs user body now created)).

(** The ceiling of a quotient: the least [t] with [n <= d * t]. *)
Definition is_ceiling (n d t : Z) : Prop :=
  (d * (t - 1) < n <= d * t)%Z.

End Spec.

(** ** Sessions *)

(** What the session store keeps for one client: the id that
    [serializeUser] put under [session.passport.user], and the flash
    queues.  The application only ever queues and reads the types [error]
    and [success]. *)
Module Session.
Record t : Type := mk {
  user : option string;
  error : list string;
  success : list string
}.

(** [req.flash(type, msg)]. *)
Definition flash (f : string * string) (s : t) : t :=
  let (type, msg) := f in
  if type =? "error" then mk (user s) (error s ++ [msg]) (success s)
  else if type =? "success" then mk (user s) (error s) (success s ++ [msg])
  else s.

(** The calls of [req.flash] made by a handler, in order. *)
Definition flash_each (fs : list (string * string)) (s : t) : t :=
  fold_left (fun acc f => flash f acc) fs s.
End Session.

(** ** The whole request pipeline of the main application *)

Module Server.

(** The process-wide state: the user collection, the two in-memory
    arrays and the upload directories. *)
Record State : Type := mkState {
  db : UserModel.Db;
  jobs : list Job.t;
  applications : list unit;     (* [let applications = []], never written *)
  disk : Upload.disk
}.

(** What a request meets besides the state: the environment mode, the
    Referer header, the clock, the fresh ObjectId and salt, and how the
    errors raised inside libraries print. *)
Record Env : Type := mkEnv {
  production : bool;            (* [process.env.NODE_ENV === 'production'] *)
  referrer : option string;
  now : Z;                      (* [Date.now()] in the post-job handler *)
  created : Z;                  (* [new Date()] *)
  stamp : string;               (* [Date.now()] in decimal, in the file name *)
  oid : string;
  salt : string;
  sent_ok : bool;               (* [Math.random() > 0.1] in the contact handler *)
  message : error -> string;    (* [err.message] *)
  stack : error -> string;      (* [err.stack] *)
  status : error -> option Z    (* [err.status] *)
}.

(** The requests.  Bodies and queries hold text fields: every field a
    string or absent, as an HTML form or a plain query string sends them.
    Job postings with other values are read in [Wide] below. *)
Inductive Request : Type :=
| GET_index
| GET_about
| GET_contact
| POST_contact
| GET_login
| POST_login (email password : option string)
| GET_register
| POST_register (body : RegisterBody.t) (file : option Upload.File)
| GET_logout
| GET_post_job
| POST_post_job (body : JobBody.t)
| GET_jobs (q : Query.t)
| GET_dashboard
| Unmatched.                    (* any other method and path *)

(** [res.locals] as the fourth global middleware fills it. *)
Record Locals : Type := mkLocals {
  l_user : option User.t;
  l_error : list string;
  l_success : list string
}.

(** The object handed to [res.render] (titles and other constants left
    out). *)
Inductive data : Type :=
| IndexData (jobs : list Job.t)
| JobsData (jobs : list Job.t) (pg : pagination)
| AboutData (users jobs applications : nat)
| ContactData
| LoginData
| RegisterData
| PostJobData
| DashboardData (user : option User.t)
| ErrorData (error : string) (stack : option string).

(** How the handling of a request ends.  [Rejected] is an async handler
    whose promise is rejected outside any [try]: no response is sent, and
    the unhandled rejection ends the process. *)
Inductive sent : Type :=
| Redirected (url : string)
| Rendered (status : Z) (template : string) (d : data) (locals : option Locals)
| Rejected.

Definition of_view (v : view) : data :=
  match v with
  | IndexView js => IndexData js
  | JobsView js pg => JobsData js pg
  end.

(** [passport.serializeUser] and [passport.deserializeUser]. *)
Definition serializeUser (user : User.t) : string := User.id user.

Definition findById (d : UserModel.Db) (id : string) : Exc (option User.t) :=
  if UserModel.reachable d
  then Ok (find (fun u => User.id u =? id) (UserModel.users d))
  else Throw DbError.

Definition deserializeUser (d : UserModel.Db) (id : string)
    : Exc (option User.t) :=
  match findById d id with
  | Ok user => Ok user
  | Throw error => Throw error
  end.

(** [passport.session()]: the principal of the request.  An id that no
    longer resolves is dropped from the session. *)
Definition passport_session (d : UserModel.Db) (s : Session.t)
    : Exc (option User.t * Session.t) :=
  match Session.user s with
  | None => Ok (None, s)
  | Some id =>
      user <- deserializeUser d id ;;
      match user with
      | Some u => Ok (Some u, s)
      | None => Ok (None, Session.mk None (Session.error s) (Session.success s))
      end
  end.

(** The global middleware that fills [res.locals]: both flash queues are
    read, which empties them. *)
Definition fill_locals (user : option User.t) (s : Session.t)
    : Locals * Session.t :=
  (mkLocals user (Session.error s) (Session.success s),
   Session.mk (Session.user s) [] []).

Section Pipeline.
Variable L : Libs.
Variable env : Env.

(** [new Error(m).message] is [m]; the other errors are raised inside
    libraries. *)
Definition error_message (err : error) : string :=
  match err with
  | JsError m => m
  | _ => message env err
  end.

(** The custom error handler. *)
Definition errorHandler (locals : option Locals) (s : Session.t) (err : error)
    : sent * Session.t :=
  match err with
  | MulterError _ =>
      (Redirected (or_default (referrer env) "/"),
       Session.flash
         ("error", ("File upload error: " ++ error_message err)%string) s)
  | _ =>
      (Rendered
         (match status env err with
          | Some code => if (code =? 0)%Z then 500%Z else code
          | None => 500%Z
          end)
         "error"
         (ErrorData
            (if production env then "Something went wrong!"
             else error_message err)
            (if production env then None else Some (stack env err)))
         locals,
       s)
  end.

(** The 404 handler. *)
Definition notFound (locals : Locals) : sent :=
  Rendered 404 "error" (ErrorData "Page not found" None) (Some locals).

(** What becomes of a handler's reply: its flash calls reach the session,
    [next(error)] reaches the error handler. *)
Definition respond (locals : Locals) (s : Session.t) (r : reply)
    : sent * Session.t :=
  let s1 := Session.flash_each (flashed r) s in
  match resp r with
  | Redirect url => (Redirected url, s1)
  | Render template v => (Rendered 200 template (of_view v) (Some locals), s1)
  | NextError err => errorHandler (Some locals) s1 err
  end.

(** [User.countDocuments()]. *)
Definition countDocuments (d : UserModel.Db) : Exc nat :=
  if UserModel.reachable d
  then Ok (List.length (UserModel.users d))
  else Throw DbError.

(** [POST /auth/login]: the local strategy behind
    [passport.authenticate] with [successRedirect], [failureRedirect] and
    [failureFlash]. *)
Definition login (d : UserModel.Db) (locals : Locals) (s : Session.t)
    (email password : option string) : sent * Session.t :=
  match email, password with
  | Some e, Some p =>
      if (e =? "") || (p =? "")
      then (Redirected "/auth/login",
            Session.flash ("error", "Missing credentials") s)
      else
        match App.verify L d e p with
        | DoneUser user =>
            (Redirected "/",
             Session.mk (Some (serializeUser user))
                        (Session.error s) (Session.success s))
        | DoneFail msg =>
            (Redirected "/auth/login", Session.flash ("error", msg) s)
        | DoneError err => errorHandler (Some locals) s err
        end
  | _, _ =>
      (Redirected "/auth/login",
       Session.flash ("error", "Missing credentials") s)
  end.

(** [GET /auth/logout].  The session store is taken to work, as it is
    for every other request: [req.logout] removes the id from the session
    and calls back without an error. *)
Definition logout (s : Session.t) : sent * Session.t :=
  (Redirected "/", Session.mk None (Session.error s) (Session.success s)).

(** The routes, once the principal is known and [res.locals] is filled. *)
Definition route (st : State) (user : option User.t) (locals : Locals)
    (s : Session.t) (r : Request) : sent * Session.t * State :=
  match r with
  | GET_index =>
      (respond locals s (App.index (jobs st) user), st)
  | GET_about =>
      match countDocuments (db st) with
      | Ok userCount =>
          (Rendered 200 "about"
             (AboutData userCount (List.length (jobs st))
                        (List.length (applications st)))
             (Some locals), s, st)
      | Throw _ =>
          (* [next] is not defined in this handler: the [catch] block
             raises a ReferenceError, the rejection is unhandled and the
             process ends.  The two arrays go with it; the collection and
             the files stay. *)
          (Rejected, s, mkState (db st) [] [] (disk st))
      end
  | GET_contact =>
      (Rendered 200 "contact" ContactData (Some locals), s, st)
  | POST_contact =>
      if sent_ok env
      then (Redirected "/contact",
            Session.flash ("success", "Message sent successfully!") s, st)
      else (errorHandler (Some locals) s (JsError "Failed to send message"), st)
  | GET_login =>
      (Rendered 200 "login" LoginData (Some locals), s, st)
  | POST_login email password =>
      (login (db st) locals s email password, st)
  | GET_register =>
      (Rendered 200 "register" RegisterData (Some locals), s, st)
  | POST_register body file =>
      match Upload.single App.upload "avatar" (stamp env) (disk st) file with
      | (Throw err, d) =>
          (errorHandler (Some locals) s err,
           mkState (db st) (jobs st) (applications st) d)
      | (Ok stored, d) =>
          let (r', db') :=
            App.register L (db st) body stored (oid env) (salt env) in
          (respond locals s r', mkState db' (jobs st) (applications st) d)
      end
  | GET_logout =>
      (logout s, st)
  | GET_post_job =>
      match App.isAuthenticated user with
      | Some r' => (respond locals s r', st)
      | None => (Rendered 200 "post-job" PostJobData (Some locals), s, st)
      end
  | POST_post_job body =>
      let (r', jobs') :=
        App.post_job (jobs st) user body (now env) (created env) in
      (respond locals s r', mkState (db st) jobs' (applications st) (disk st))
  | GET_jobs q =>
      (respond locals s (App.get_jobs (jobs st) q), st)
  | GET_dashboard =>
      match App.isAuthenticated user with
      | Some r' => (respond locals s r', st)
      | None =>
          (Rendered 200 "dashboard" (DashboardData user) (Some locals), s, st)
      end
  | Unmatched => (notFound locals, s, st)
  end.

(** One request from the session middleware to the response.  The
    session [s] is the one the request's cookie names, and the session
    returned is the one a later request finds if it sends the cookie back.
    Line 80 marks the cookie [secure] when [NODE_ENV] is [production]:
    over the plain HTTP that [app.listen] serves no cookie is then set, and
    a later request comes with a fresh session instead.  Statements that
    chain two requests through the returned session are therefore made for
    [production env = false]. *)
Definition handle (st : State) (s : Session.t) (r : Request)
    : sent * Session.t * State :=
  match passport_session (db st) s with
  | Throw err => (errorHandler None s err, st)
  | Ok (user, s1) =>
      let (locals, s2) := fill_locals user s1 in
      route st user locals s2 r
  end.

End Pipeline.

(** The states the running process can be in, from the state [st0] it
    started in: requests are handled, and the database comes and goes. *)
Inductive reachable_from (L : Libs) (st0 : State) : State -> Prop :=
| reach_start : reachable_from L st0 st0
| reach_request (st : State) (env : Env) (s : Session.t) (r : Request) :
    reachable_from L st0 st ->
    reachable_from L st0 (snd (handle L env st s r))
| reach_outage (st : State) (up : bool) :
    reachable_from L st0 st ->
    reachable_from L st0
      (mkState (UserModel.mkDb up (UserModel.users (db st)))
               (jobs st) (applications st) (disk st)).

(** A process that has just started: both arrays are empty; the user
    collection and the upload directories are what earlier runs left. *)
Definition started (st0 : State) : Prop :=
  jobs st0 = [] /\ applications st0 = [].

End Server.

(** ** The filter callbacks without exceptions

    What the two callbacks of [GET /jobs] compute on a job whose fields
    are there; used to describe the result of [App.filter_jobs]. *)

Definition keep_search (term : string) (job : Job.t) : bool :=
  match Job.title job, Job.description job with
  | Some t, Some d =>
      includes (toLowerCase term) (toLowerCase t) ||
      includes (toLowerCase term) (toLowerCase d)
  | _, _ => false
  end.

Definition keep_location (term : string) (job : Job.t) : bool :=
  match Job.location job with
  | Some l => includes (toLowerCase term) (toLowerCase l)
  | None => false
  end.

Definition keep_if (v : option string) (keep : string -> Job.t -> bool)
    (job : Job.t) : bool :=
  match v with
  | Some term => keep term job
  | None => true
  end.

(** The jobs a reply of [GET /jobs] shows. *)
Definition jobs_shown (r : reply) : list Job.t :=
  match resp r with
  | Render _ (JobsView js _) => js
  | _ => []
  end.

(** ** Sample data

    Concrete inputs on which the statements below are exercised. *)

Module Demo.

(** Stand-ins for the external libraries. *)
Definition libs : Libs :=
  mkLibs
    (fun data salt => (salt ++ "$" ++ data)%string)
    (fun data hash => hash =? ("salt$" ++ data)%string)
    (fun p => if includes ".png" p then ".png" else "")
    true.

Definition alice : User.t :=
  User.mk "65a1" "Alice" "alice@x.com" "salt$pw123456" "employer" None.

Definition db : UserModel.Db := UserModel.mkDb true [alice].

Definition posting (n : nat) : Job.t :=
  Job.mk (Z.of_nat n) "65a1" (Some "Developer") (Some "Acme")
         (Some "Writes programs") None (Some "Pune") 0.

(** Twenty-five postings. *)
Definition jobs25 : list Job.t := map posting (seq 0 25).

(** A posting form without the location field. *)
Definition body_without_location : JobBody.t :=
  JobBody.mk (Some "Developer") (Some "Acme") (Some "Writes programs")
             None None.

(** A posting form with a title of two characters. *)
Definition body_go : JobBody.t :=
  JobBody.mk (Some "Go") (Some "Acme") (Some "Writes programs") None
             (Some "Pune").

(** A registration whose email carries capitals and surrounding blanks. *)
Definition body_padded : RegisterBody.t :=
  RegisterBody.mk (Some "Bob") (Some " Bob@X.com ") (Some "pw123456")
                  (Some "pw123456") (Some "jobseeker").

(** The record that registration stores for it. *)
Definition bob : User.t :=
  User.mk "65a2" "Bob" "bob@x.com" "salt$pw123456" "jobseeker"
          (Some "/images/default-avatar.png").

(** A registration whose email differs from Alice's only in case. *)
Definition body_alice_again : RegisterBody.t :=
  RegisterBody.mk (Some "Alice") (Some "ALICE@x.com") (Some "pw123456")
                  (Some "pw123456") (Some "jobseeker").

(** A registration with a mistyped confirmation. *)
Definition body_mismatch : RegisterBody.t :=
  RegisterBody.mk (Some "Carol") (Some "carol@x.com") (Some "pw123456")
                  (Some "pw123457") None.

(** A PDF sent through the avatar field. *)
Definition pdf_avatar : Upload.File :=
  Upload.mkFile "avatar" "cv.pdf" "application/pdf" "%PDF-1.4".

(** A script sent through the avatar field. *)
Definition script_avatar : Upload.File :=
  Upload.mkFile "avatar" "x.js" "text/javascript" "alert(1)".

Definition fresh : Proc.t := Proc.mk 0 [] [] None.

(** A network on which the first connection attempt fails and every later
    one would succeed. *)
Definition flaky (k : nat) : bool := negb (k =? 0)%nat.

(** A request environment in development mode, and the same in
    production. *)
Definition env : Server.Env :=
  Server.mkEnv false None 1700000000000 1700000000000 "1700000000000"
               "65a2" "salt" true
               (fun _ => "library error") (fun _ => "at app.js") (fun _ => None).

Definition prod_env : Server.Env :=
  Server.mkEnv true None 1700000000000 1700000000000 "1700000000000"
               "65a2" "salt" true
               (fun _ => "library error") (fun _ => "at app.js") (fun _ => None).

(** A freshly started process over Alice's collection, an anonymous
    session with two queued messages, and Alice's session. *)
Definition state : Server.State := Server.mkState db [] [] [].

Definition visitor : Session.t := Session.mk None ["old error"] ["old note"].

Definition alice_session : Session.t := Session.mk (Some "65a1") [] [].

(** A PNG sent through the avatar field. *)
Definition png_avatar : Upload.File :=
  Upload.mkFile "avatar" "me.png" "image/png" "PNG".

(** The same file sent through another field. *)
Definition png_elsewhere : Upload.File :=
  Upload.mkFile "photo" "me.png" "image/png" "PNG".

End Demo.

(** ** Request bodies that are not text *)

(** [JobBody.t] above holds what an HTML form sends: every field a string
    or absent.  [bodyParser.json()] and the extended [urlencoded] parser
    also deliver numbers and arrays ([{"title": 123}], [title[]=a&...]).
    This module reads [validateJob] and the post-job handler on such
    values. *)
Module Wide.

#[local] Unset Elimination Schemes.
Inductive value : Type :=
  | Undefined
  | Number (z : Z)
  | Str (s : string)
  | Array (items : list value).
#[local] Set Elimination Schemes.

(** [!!v]. *)
Definition truthy (v : value) : bool :=
  match v with
  | Undefined => false
  | Number z => negb (z =? 0)%Z
  | Str s => negb (s =? "")%string
  | Array _ => true
  end.

(** [v.length] for a [v] that is not [undefined]: a number has no such
    property, and the result is [undefined]. *)
Definition length (v : value) : option nat :=
  match v with
  | Str s => Some (String.length s)
  | Array items => Some (List.length items)
  | Undefined | Number _ => None
  end.

(** [!v || v.length < n], where [undefined < n] is [false]. *)
Definition too_short (v : value) (n : nat) : bool :=
  negb (truthy v) ||
  match length v with
  | Some k => (k <? n)%nat
  | None => false
  end.

Record body : Type := mkBody {
  title : value;
  company : value;
  description : value;
  requirements : value;
  location : value
}.

Record job : Type := mkJob {
  id : Z;
  userId : string;
  job_title : value;
  job_company : value;
  job_description : value;
  job_requirements : value;
  job_location : value;
  createdAt : Z
}.

(** The [errors] array of [validateJob]. *)
Definition validate_errors (b : body) : list string :=
  (if too_short (title b) 3
   then ["Title must be at least 3 characters"] else []) ++
  (if negb (truthy (company b))
   then ["Company name is required"] else []) ++
  (if too_short (description b) 10
   then ["Description must be at least 10 characters"] else []).

Definition validateJob (b : body) : option reply :=
  let errors := validate_errors b in
  if (0 <? List.length errors)%nat
  then Some (mkReply (flash_all "error" errors) (Redirect "/employer/post-job"))
  else None.

(** [POST /employer/post-job]. *)
Definition post_job (jobs : list job) (user : option User.t) (b : body)
    (now created : Z) : reply * list job :=
  match App.isAuthenticated user with
  | Some r => (r, jobs)
  | None =>
      match validateJob b with
      | Some r => (r, jobs)
      | None =>
          match user with
          | None => (mkReply [] (NextError TypeError), jobs)
          | Some u =>
              (mkReply [("success", "Job posted successfully!")]
                       (Redirect "/jobs"),
               jobs ++ [mkJob now (User.id u) (title b) (company b)
                              (description b) (requirements b) (location b)
                              created])
          end
      end
  end.

(** [v.toLowerCase()]: only a string has the method. *)
Definition lower (v : value) : Exc string :=
  match v with
  | Str s => Ok (toLowerCase s)
  | Undefined | Number _ | Array _ => Throw TypeError
  end.

(** The callback of the free-text filter of [GET /jobs], for a search
    term that is a string. *)
Definition matches_search (search : string) (j : job) : Exc bool :=
  title <- lower (job_title j) ;;
  if includes (toLowerCase search) title then Ok true
  else
    description <- lower (job_description j) ;;
    Ok (includes (toLowerCase search) description).

(** Text fields as values. *)
Definition of_field (o : option string) : value :=
  match o with
  | None => Undefined
  | Some s => Str s
  end.

Definition of_body (b : JobBody.t) : body :=
  mkBody (of_field (JobBody.title b)) (of_field (JobBody.company b))
         (of_field (JobBody.description b))
         (of_field (JobBody.requirements b)) (of_field (JobBody.location b)).

End Wide.

(** ** Statements in the words of the specification *)

Module Stated.

(** Every registration attempt whose confirmation differs from the
    password creates no user and is answered with a redirect to the
    registration form that carries an error message. *)
Definition mismatch_is_redirected (L : Libs) : Prop :=
  forall (env : Server.Env) (st : Server.State) (s : Session.t)
         (body : RegisterBody.t) (file : option Upload.File),
    RegisterBody.password body <> RegisterBody.confirmPassword body ->
    let result := Server.handle L env st s (Server.POST_register body file) in
    UserModel.users (Server.db (snd result)) =
      UserModel.users (Server.db st) /\
    fst (fst result) = Server.Redirected "/auth/register" /\
    Session.error (snd (fst result)) <> [].

End Stated.

(** * Properties *)

(** ** Strings *)

Section StringFacts.

Local Ltac by_cases_on_char c :=
  destruct c as [[] [] [] [] [] [] [] []]; vm_compute; reflexivity.

Lemma char_to_lower_idem (c : ascii) :
  char_to_lower (char_to_lower c) = char_to_lower c.
Proof. by_cases_on_char c. Qed.

Lemma is_space_char_to_lower (c : ascii) :
  is_space (char_to_lower c) = is_space c.
Proof. by_cases_on_char c. Qed.

Lemma toLowerCase_idem (s : string) :
  toLowerCase (toLowerCase s) = toLowerCase s.
Proof.
  induction s as [|c s IH]; simpl; [reflexivity|].
  now rewrite char_to_lower_idem, IH.
Qed.

Lemma toLowerCase_app (s t : string) :
  toLowerCase (s ++ t) = (toLowerCase s ++ toLowerCase t)%string.
Proof.
  induction s as [|c s IH]; simpl; [reflexivity|]. now rewrite IH.
Qed.

Lemma toLowerCase_empty (s : string) :
  (toLowerCase s =? "") = (s =? "").
Proof. destruct s; reflexivity. Qed.

(** A lower-cased string that splits in two comes from a split of the
    original. *)
Lemma toLowerCase_split (s a b : string) :
  toLowerCase s = (a ++ b)%string ->
  exists s1 s2, s = (s1 ++ s2)%string /\ toLowerCase s1 = a /\ toLowerCase s2 = b.
Proof.
  revert s; induction a as [|x a IH]; intros s H; simpl in H.
  - exists "", s. repeat split. exact H.
  - destruct s as [|c s]; simpl in H; [discriminate|].
    injection H as Hc Hs.
    destruct (IH s Hs) as (s1 & s2 & -> & H1 & H2).
    exists (String c s1), s2. simpl. now rewrite Hc, H1.
Qed.

Lemma trimStart_toLowerCase (s : string) :
  trimStart (toLowerCase s) = toLowerCase (trimStart s).
Proof.
  induction s as [|c s IH]; simpl; [reflexivity|].
  rewrite is_space_char_to_lower. now destruct (is_space c).
Qed.

Lemma trimEnd_toLowerCase (s : string) :
  trimEnd (toLowerCase s) = toLowerCase (trimEnd s).
Proof.
  induction s as [|c s IH]; simpl; [reflexivity|].
  rewrite is_space_char_to_lower, IH, toLowerCase_empty.
  now destruct (is_space c && (trimEnd s =? "")).
Qed.

Lemma trim_toLowerCase (s : string) :
  trim (toLowerCase s) = toLowerCase (trim s).
Proof.
  unfold trim. now rewrite trimStart_toLowerCase, trimEnd_toLowerCase.
Qed.

Lemma startsWith_iff (t s : string) :
  startsWith t s = true <-> exists post, s = (t ++ post)%string.
Proof.
  revert s; induction t as [|a t IH]; intros s; simpl.
  - split; [intros _; now exists s | reflexivity].
  - destruct s as [|b s].
    + split; [discriminate | intros [post H]; discriminate].
    + rewrite andb_true_iff, Ascii.eqb_eq, IH. split.
      * intros [-> [post ->]]. now exists post.
      * intros [post H]. injection H as -> ->. split; [reflexivity | now exists post].
Qed.

Lemma includes_iff (t s : string) :
  includes t s = true <-> exists pre post, s = (pre ++ t ++ post)%string.
Proof.
  induction s as [|b s IH].
  - simpl. rewrite orb_false_r, startsWith_iff. split.
    + intros [post H]. now exists "", post.
    + intros (pre & post & H). destruct pre; simpl in H; [now exists post | discriminate].
  - cbn [includes]. rewrite orb_true_iff, startsWith_iff, IH. split.
    + intros [[post H] | (pre & post & ->)].
      * now exists "", post.
      * now exists (String b pre), post.
    + intros (pre & post & H). destruct pre as [|c pre]; simpl in H.
      * left. now exists post.
      * right. injection H as _ ->. now exists pre, post.
Qed.

Lemma includes_empty (s : string) : includes "" s = true.
Proof. destruct s; reflexivity. Qed.

(** The code's test ([toLowerCase] on both sides, then [includes]) is the
    case-insensitive substring match of the specification. *)
Lemma includes_toLowerCase_iff (term s : string) :
  includes (toLowerCase term) (toLowerCase s) = true <-> Spec.ci_substring term s.
Proof.
  rewrite includes_iff. unfold Spec.ci_substring. split.
  - intros (a & b & H).
    destruct (toLowerCase_split _ _ _ H) as (pre & rest & -> & <- & H2).
    destruct (toLowerCase_split _ _ _ H2) as (mid & post & -> & Hm & <-).
    now exists pre, mid, post.
  - intros (pre & mid & post & -> & Hm).
    exists (toLowerCase pre), (toLowerCase post).
    now rewrite !toLowerCase_app, Hm.
Qed.

End StringFacts.

(** ** Slices and page counts *)

Section SliceFacts.
Context {A : Type}.

(** A window that starts at a non-negative offset. *)
Lemma slice_window (l : list A) (skip w : Z) :
  (0 <= skip)%Z -> (0 <= w)%Z ->
  slice l skip (skip + w) = firstn (Z.to_nat w) (skipn (Z.to_nat skip) l).
Proof.
  intros Hs Hw. unfold slice.
  destruct (Z.ltb_spec skip 0); [lia|].
  destruct (Z.ltb_spec (skip + w) 0); [lia|].
  set (len := Z.of_nat (List.length l)).
  destruct (Z.le_gt_cases len skip) as [Hge | Hlt].
  - rewrite Z.min_r, Z.min_r by lia.
    replace (Z.to_nat (len - len)) with 0%nat by lia. simpl.
    rewrite (skipn_all2 (n := Z.to_nat skip)) by (subst len; lia).
    now rewrite firstn_nil.
  - rewrite (Z.min_l skip) by lia.
    destruct (Z.le_gt_cases (skip + w) len) as [Hfit | Hover].
    + rewrite Z.min_l by lia. f_equal. lia.
    + rewrite Z.min_r by lia.
      rewrite !firstn_all2; try reflexivity;
        rewrite length_skipn; subst len; lia.
Qed.

(** A window that ends at offset zero is empty. *)
Lemma slice_to_zero (l : list A) (start : Z) :
  slice l start 0 = [].
Proof.
  unfold slice. change (0 <? 0)%Z with false. cbv iota.
  rewrite Z.min_l by lia.
  replace (Z.to_nat _) with 0%nat; [reflexivity|].
  destruct (Z.ltb_spec start 0); lia.
Qed.

End SliceFacts.

Lemma ceil_div_is_ceiling (n d : Z) :
  (0 < d)%Z -> Spec.is_ceiling n d (ceil_div n d).
Proof.
  intros Hd. unfold Spec.is_ceiling, ceil_div.
  pose proof (Z.div_mod (- n) d) as E.
  pose proof (Z.mod_pos_bound (- n) d Hd) as B.
  nia.
Qed.

Lemma ceil_div_pos_iff (n : Z) :
  (0 <= n)%Z -> (0 <? ceil_div n 10)%Z = negb (n =? 0)%Z.
Proof.
  intros Hn. pose proof (ceil_div_is_ceiling n 10 ltac:(lia)) as H.
  unfold Spec.is_ceiling in H.
  destruct (Z.ltb_spec 0 (ceil_div n 10)), (Z.eqb_spec n 0); simpl; try reflexivity; lia.
Qed.

(** ** Job search: pagination *)

Section Pagination.

(** The reply of [GET /jobs] once the filters have produced [matching]. *)
Lemma get_jobs_of_filter (jobs matching : list Job.t) (q : Query.t) :
  App.filter_jobs jobs q = Ok matching ->
  let page := match Query.page q with Some p => p | None => 1%Z end in
  let total := ceil_div (Z.of_nat (List.length matching)) 10 in
  App.get_jobs jobs q =
  mkReply []
    (Render "jobs"
       (JobsView
          (slice matching ((page - 1) * 10) ((page - 1) * 10 + 10))
          (mkPagination page total (page <? total)%Z (page >? 1)%Z))).
Proof.
  intros H. unfold App.get_jobs. now rewrite H.
Qed.

(** Without filters the whole registry is the result set. *)
Lemma filter_jobs_no_filter (jobs : list Job.t) (p : option Z) :
  App.filter_jobs jobs (Query.mk None None p) = Ok jobs.
Proof. reflexivity. Qed.

End Pagination.

(** C1. For the job search with page size 10: once the filters have
    produced a result set of size N, the reported total is the ceiling of
    N/10, [hasNext] holds iff the page number is below that total,
    [hasPrev] holds iff it is above 1, and a page number p >= 1 shows the
    matching jobs at indices 10(p-1) .. 10(p-1)+9 (those that exist, in
    order).  In particular 25 jobs and page 2 give jobs 10..19 with
    total 3 and both flags set. *)
Theorem search_pagination :
  (forall (jobs matching : list Job.t) (q : Query.t) (p : Z),
      App.filter_jobs jobs q = Ok matching ->
      Query.page q = Some p ->
      exists page_jobs pg,
        App.get_jobs jobs q = mkReply [] (Render "jobs" (JobsView page_jobs pg)) /\
        current pg = p /\
        Spec.is_ceiling (Z.of_nat (List.length matching)) 10 (total pg) /\
        (hasNext pg = true <-> (p < total pg)%Z) /\
        (hasPrev pg = true <-> (p > 1)%Z) /\
        ((1 <= p)%Z ->
         page_jobs = firstn 10 (skipn (Z.to_nat (10 * (p - 1))) matching) /\
         forall i : nat,
           nth_error page_jobs i =
           if (i <? 10)%nat
           then nth_error matching (Z.to_nat (10 * (p - 1)) + i)
           else None)) /\
  (forall jobs : list Job.t,
      List.length jobs = 25%nat ->
      App.get_jobs jobs (Query.mk None None (Some 2%Z)) =
      mkReply []
        (Render "jobs"
           (JobsView (firstn 10 (skipn 10 jobs))
                     (mkPagination 2 3 true true)))).
Proof.
  split.
  - intros jobs matching q p Hf Hp.
    pose proof (get_jobs_of_filter jobs matching q Hf) as E.
    rewrite Hp in E. cbv zeta in E.
    eexists _, _. split; [exact E|]. cbn [current total hasNext hasPrev].
    split; [reflexivity|].
    split; [apply ceil_div_is_ceiling; lia|].
    split; [apply Z.ltb_lt|].
    split; [rewrite Z.gtb_ltb, Z.ltb_lt; lia|].
    intros H1.
    assert (S : slice matching ((p - 1) * 10) ((p - 1) * 10 + 10) =
                firstn 10 (skipn (Z.to_nat (10 * (p - 1))) matching)).
    { rewrite slice_window by lia.
      replace (10 * (p - 1))%Z with ((p - 1) * 10)%Z by lia. reflexivity. }
    split; [exact S|].
    intros i. rewrite S, nth_error_firstn, nth_error_skipn. reflexivity.
  - intros jobs Hlen.
    rewrite (get_jobs_of_filter jobs jobs _ (filter_jobs_no_filter jobs _)).
    cbn [Query.page]. rewrite Hlen.
    rewrite (slice_window jobs ((2 - 1) * 10) 10) by lia.
    reflexivity.
Qed.

(** ** Posting a job: validation *)

Section Validation.

(** The check [!v || v.length < n] for a bound [n >= 1]. *)
Lemma too_short_iff (v : option string) (n : nat) (msg : string) :
  1 <= n ->
  (match v with
   | None => [msg]
   | Some s => if (s =? "") || (String.length s <? n)%nat then [msg] else []
   end) <> [] <->
  ~ (exists s, v = Some s /\ n <= String.length s).
Proof.
  intros Hn. destruct v as [s|].
  - destruct (String.eqb_spec s "") as [-> | Hne]; simpl.
    + split; [|discriminate]. intros _ (s & [= <-] & H). simpl in H. lia.
    + destruct (Nat.ltb_spec (String.length s) n).
      * split; [|discriminate]. intros _ (s' & [= <-] & H'). lia.
      * split; [intros H'; now elim H' | intros H'; elim H'; now exists s].
  - split; [|discriminate]. intros _ (s & [= ] & _).
Qed.

Lemma company_error_iff (body : JobBody.t) :
  truthy (JobBody.company body) = false <-> ~ Spec.company_ok body.
Proof.
  unfold Spec.company_ok. destruct (JobBody.company body) as [c|]; simpl.
  - destruct (String.eqb_spec c ""); simpl.
    + split; [|reflexivity]. intros _ (c' & [= <-] & H). now apply H.
    + split; [discriminate|]. intros H. elim H. now exists c.
  - split; [|reflexivity]. intros _ (c' & [= ] & _).
Qed.

Lemma long_enough_dec (v : option string) (n : nat) :
  (exists s, v = Some s /\ n <= String.length s) \/
  ~ (exists s, v = Some s /\ n <= String.length s).
Proof.
  destruct v as [s|].
  - destruct (le_dec n (String.length s)) as [H | H].
    + left. now exists s.
    + right. intros (s' & [= <-] & H'). now apply H.
  - right. intros (s & [= ] & _).
Qed.

Lemma company_ok_dec (body : JobBody.t) :
  Spec.company_ok body \/ ~ Spec.company_ok body.
Proof.
  destruct (truthy (JobBody.company body)) eqn:E.
  - left. unfold Spec.company_ok.
    destruct (JobBody.company body) as [c|]; [|discriminate].
    exists c. split; [reflexivity|]. intros ->. discriminate.
  - right. now apply company_error_iff.
Qed.

(** Membership in a one-message-or-nothing list. *)
Lemma in_optional_message (m msg : string) (l : list string) :
  l = [msg] \/ l = [] -> (In m l <-> m = msg /\ l <> []).
Proof.
  intros [-> | ->]; simpl; split.
  - intros [<- | []]. split; [reflexivity | discriminate].
  - intros [-> _]. now left.
  - intros [].
  - intros [_ H]. now elim H.
Qed.

Lemma validateJob_passes_iff (body : JobBody.t) :
  App.validateJob body = None <-> App.validate_errors body = [].
Proof.
  unfold App.validateJob. destruct (App.validate_errors body); simpl.
  - split; reflexivity.
  - split; discriminate.
Qed.

Lemma validateJob_rejects (body : JobBody.t) :
  App.validate_errors body <> [] ->
  App.validateJob body =
  Some (mkReply (flash_all "error" (App.validate_errors body))
                (Redirect "/employer/post-job")).
Proof.
  unfold App.validateJob. destruct (App.validate_errors body); simpl.
  - intros H. now elim H.
  - reflexivity.
Qed.

End Validation.

(** Validation before insertion, for a body of text fields (every field
    a string or absent, as the HTML form sends them; lengths count code
    units): each of the three requirements
    (title of at least 3 characters, company present, description of at
    least 10 characters) is checked on its own, so every violated one
    contributes its message whatever the others do; for a signed-in user
    (the route sits behind [isAuthenticated]) the messages are flashed
    together with a redirect to the form; on any violation the registry
    is left as it was; a job that is appended meets all three.  A title
    of 2 characters such as Go is rejected with its message. *)
Theorem post_job_validation :
  forall (jobs : list Job.t) (user : option User.t) (body : JobBody.t)
         (now created : Z),
    let errors := App.validate_errors body in
    let result := App.post_job jobs user body now created in
    (In "Title must be at least 3 characters" errors <-> ~ Spec.title_ok body) /\
    (In "Company name is required" errors <-> ~ Spec.company_ok body) /\
    (In "Description must be at least 10 characters" errors <->
       ~ Spec.description_ok body) /\
    (errors <> [] -> snd result = jobs) /\
    (errors <> [] -> user <> None ->
       result = (mkReply (flash_all "error" errors)
                         (Redirect "/employer/post-job"), jobs)) /\
    (snd result <> jobs ->
       Spec.title_ok body /\ Spec.company_ok body /\ Spec.description_ok body) /\
    (forall t, JobBody.title body = Some t -> String.length t = 2 ->
       In "Title must be at least 3 characters" errors /\
       snd result = jobs /\
       (user <> None ->
        In ("error", "Title must be at least 3 characters")
           (flashed (fst result)) /\
        resp (fst result) = Redirect "/employer/post-job")).
Proof.
  intros jobs user body now created errors result.
  set (et := match JobBody.title body with
             | None => ["Title must be at least 3 characters"]
             | Some title =>
                 if (title =? "") || (String.length title <? 3)%nat
                 then ["Title must be at least 3 characters"] else []
             end).
  set (ec := if negb (truthy (JobBody.company body))
             then ["Company name is required"] else []).
  set (ed := match JobBody.description body with
             | None => ["Description must be at least 10 characters"]
             | Some description =>
                 if (description =? "") || (String.length description <? 10)%nat
                 then ["Description must be at least 10 characters"] else []
             end).
  assert (E : errors = et ++ ec ++ ed) by reflexivity.
  assert (St : et = ["Title must be at least 3 characters"] \/ et = []).
  { subst et. destruct (JobBody.title body) as [t|]; [|now left].
    destruct ((t =? "") || (String.length t <? 3)%nat); [now left | now right]. }
  assert (Sc : ec = ["Company name is required"] \/ ec = []).
  { subst ec. destruct (negb (truthy (JobBody.company body))); [now left | now right]. }
  assert (Sd : ed = ["Description must be at least 10 characters"] \/ ed = []).
  { subst ed. destruct (JobBody.description body) as [d|]; [|now left].
    destruct ((d =? "") || (String.length d <? 10)%nat); [now left | now right]. }
  assert (Ht : et <> [] <-> ~ Spec.title_ok body).
  { subst et. apply too_short_iff. lia. }
  assert (Hc : ec <> [] <-> ~ Spec.company_ok body).
  { rewrite <- company_error_iff. subst ec.
    destruct (truthy (JobBody.company body)); simpl; split;
      try discriminate; try reflexivity; intros H; now elim H. }
  assert (Hd : ed <> [] <-> ~ Spec.description_ok body).
  { subst ed. apply too_short_iff. lia. }
  assert (T : In "Title must be at least 3 characters" errors <-> ~ Spec.title_ok body).
  { rewrite E, !in_app_iff, <- Ht.
    rewrite (in_optional_message _ _ _ St), (in_optional_message _ _ _ Sc),
            (in_optional_message _ _ _ Sd).
    split; [intros [[_ H] | [[H _] | [H _]]]; try discriminate; exact H
           | intros H; left; now split]. }
  assert (Unchanged : errors <> [] -> snd result = jobs).
  { intros Hne. subst result. unfold App.post_job.
    destruct (App.isAuthenticated user); [reflexivity|].
    now rewrite (validateJob_rejects body Hne). }
  split; [exact T|].
  split.
  { rewrite E, !in_app_iff, <- Hc.
    rewrite (in_optional_message _ _ _ St), (in_optional_message _ _ _ Sc),
            (in_optional_message _ _ _ Sd).
    split; [intros [[H _] | [[_ H] | [H _]]]; try discriminate; exact H
           | intros H; right; left; now split]. }
  split.
  { rewrite E, !in_app_iff, <- Hd.
    rewrite (in_optional_message _ _ _ St), (in_optional_message _ _ _ Sc),
            (in_optional_message _ _ _ Sd).
    split; [intros [[H _] | [[H _] | [_ H]]]; try discriminate; exact H
           | intros H; right; right; now split]. }
  split; [exact Unchanged|].
  split.
  { intros Hne Hu. subst result. unfold App.post_job.
    destruct user as [u|]; [|now elim Hu]. simpl.
    now rewrite (validateJob_rejects body Hne). }
  split.
  { intros Hchg.
    assert (Hnil : errors = []).
    { destruct errors as [|e es] eqn:Ee; [reflexivity|].
      elim Hchg. apply Unchanged. discriminate. }
    rewrite E in Hnil. apply app_eq_nil in Hnil as [H1 H2].
    apply app_eq_nil in H2 as [H2 H3].
    repeat split.
    - destruct (long_enough_dec (JobBody.title body) 3) as [H | H]; [exact H | now apply Ht in H].
    - destruct (company_ok_dec body) as [H | H]; [exact H | now apply Hc in H].
    - destruct (long_enough_dec (JobBody.description body) 10) as [H | H]; [exact H | now apply Hd in H]. }
  intros t Htitle Hlen.
  assert (Hin : In "Title must be at least 3 characters" errors).
  { apply T. intros (t' & Ht' & Hge). rewrite Htitle in Ht'.
    injection Ht' as <-. lia. }
  assert (Hne : errors <> []).
  { intros Hnil. rewrite Hnil in Hin. exact Hin. }
  split; [exact Hin|].
  split; [exact (Unchanged Hne)|].
  intros Hu. subst result. unfold App.post_job.
  destruct user as [u|]; [|now elim Hu]. simpl.
  rewrite (validateJob_rejects body Hne). cbn [fst flashed resp].
  split; [|reflexivity].
  unfold flash_all. apply in_map_iff.
  exists "Title must be at least 3 characters". split; [reflexivity | exact Hin].
Qed.

Lemma search_pagination_witness :
  let q := Query.mk (Some "DEV") (Some "pune") (Some 2%Z) in
  App.filter_jobs Demo.jobs25 q = Ok Demo.jobs25 /\
  exists page_jobs pg,
    App.get_jobs Demo.jobs25 q =
      mkReply [] (Render "jobs" (JobsView page_jobs pg)) /\
    Spec.is_ceiling 25 10 (total pg) /\
    page_jobs = firstn 10 (skipn 10 Demo.jobs25).
Proof.
  intros q. split; [vm_compute; reflexivity|].
  destruct (proj1 search_pagination Demo.jobs25 Demo.jobs25 q 2%Z
              eq_refl eq_refl)
    as (page_jobs & pg & E & _ & C & _ & _ & S).
  exists page_jobs, pg. split; [exact E|]. split; [exact C|].
  apply S. lia.
Defined.

Lemma post_job_validation_witness :
  App.validate_errors Demo.body_go <> [] /\
  In "Title must be at least 3 characters" (App.validate_errors Demo.body_go) /\
  App.post_job Demo.jobs25 (Some Demo.alice) Demo.body_go 1 2 =
    (mkReply [("error", "Title must be at least 3 characters")]
             (Redirect "/employer/post-job"), Demo.jobs25).
Proof.
  destruct (post_job_validation Demo.jobs25 (Some Demo.alice) Demo.body_go 1 2)
    as (_ & _ & _ & _ & R & _ & G).
  split; [discriminate|].
  split; [exact (proj1 (G "Go" eq_refl eq_refl))|].
  apply R; discriminate.
Defined.

(** On text fields the two readings of [validateJob] agree. *)
Lemma wide_validate_errors_on_text (body : JobBody.t) :
  Wide.validate_errors (Wide.of_body body) = App.validate_errors body.
Proof.
  unfold Wide.validate_errors, App.validate_errors, Wide.too_short, truthy.
  destruct body as [[t|] [c|] [d|] r l]; cbn;
    repeat match goal with
           | |- context [(?x =? "")%string] => destruct (x =? "")%string; cbn
           end; reflexivity.
Qed.

(** C2. [validateJob] does not require a title of at least 3 characters
    and a description of at least 10 of every job-posting request: the
    tests [title.length < 3] and [description.length < 10] are false for a
    number, which has no [length], and count the elements of an array.  A
    JSON body with title 123 and description 1234567890 passes with no
    error and the job is appended to the registry; so is a job whose title
    is an array of three strings, and every free-text search then fails on
    [job.title.toLowerCase].  On bodies of text fields the validator is
    the one of [App.validate_errors]. *)
Theorem post_job_validation_gap :
  let numbers :=
    Wide.mkBody (Wide.Number 123) (Wide.Str "Acme")
                (Wide.Number 1234567890) Wide.Undefined Wide.Undefined in
  let listed :=
    Wide.mkBody (Wide.Array [Wide.Str "a"; Wide.Str "b"; Wide.Str "c"])
                (Wide.Str "Acme") (Wide.Str "Writes programs")
                Wide.Undefined Wide.Undefined in
  let posted (b : Wide.body) :=
    forall (jobs : list Wide.job) (u : User.t) (now created : Z),
      Wide.post_job jobs (Some u) b now created =
        (mkReply [("success", "Job posted successfully!")] (Redirect "/jobs"),
         jobs ++ [Wide.mkJob now (User.id u) (Wide.title b) (Wide.company b)
                             (Wide.description b) (Wide.requirements b)
                             (Wide.location b) created]) in
  Wide.validate_errors numbers = [] /\
  Wide.validate_errors listed = [] /\
  posted numbers /\ posted listed /\
  (forall (search : string) (u : User.t) (now created : Z),
     Wide.matches_search search
       (Wide.mkJob now (User.id u) (Wide.title listed) (Wide.company listed)
                   (Wide.description listed) (Wide.requirements listed)
                   (Wide.location listed) created) = Throw TypeError) /\
  (forall body : JobBody.t,
     Wide.validate_errors (Wide.of_body body) = App.validate_errors body).
Proof.
  cbv zeta. split; [reflexivity|]. split; [reflexivity|].
  split; [|split; [|split]].
  - intros jobs u now created. reflexivity.
  - intros jobs u now created. reflexivity.
  - reflexivity.
  - exact wide_validate_errors_on_text.
Qed.

(** ** The home page *)

(** C9. The home page lists every job of the registry for an anonymous
    request and, for an authenticated one, exactly the jobs whose [userId]
    is the principal's id, in registry order; no other user's posting is
    shown. *)
Theorem home_page_jobs :
  forall jobs : list Job.t,
    App.index jobs None = mkReply [] (Render "index" (IndexView jobs)) /\
    forall u : User.t,
      exists shown,
        App.index jobs (Some u) = mkReply [] (Render "index" (IndexView shown)) /\
        shown = filter (fun job => Job.userId job =? User.id u) jobs /\
        forall job, In job shown <-> In job jobs /\ Job.userId job = User.id u.
Proof.
  intros jobs. split.
  - unfold App.index. f_equal. f_equal. f_equal.
    induction jobs as [|j js IH]; simpl; [reflexivity | now rewrite IH].
  - intros u. eexists. split; [reflexivity|]. split; [reflexivity|].
    intros job. rewrite filter_In, String.eqb_eq. reflexivity.
Qed.

(** ** Credential verification *)

(** C4. Credential verification, in the application and in the
    [config/database.js] variant alike, reports the same message
    [Incorrect email or password] when no user has the (lower-cased)
    email and when a user has it but the hash comparison fails; and
    whatever failure it reports carries that message, so the two causes
    cannot be told apart. *)
Theorem verify_failure_is_generic :
  forall (L : Libs) (db : UserModel.Db) (email password : string),
    let lookup :=
      UserModel.findOne (runSettersOnQuery L) db (toLowerCase email) in
    (lookup = Ok None ->
       App.verify L db email password = DoneFail "Incorrect email or password" /\
       Config.verify L db email password = DoneFail "Incorrect email or password") /\
    (forall user,
       lookup = Ok (Some user) ->
       bcrypt_compare L password (User.password user) = false ->
       App.verify L db email password = DoneFail "Incorrect email or password" /\
       Config.verify L db email password = DoneFail "Incorrect email or password") /\
    (forall message,
       App.verify L db email password = DoneFail message \/
       Config.verify L db email password = DoneFail message ->
       message = "Incorrect email or password").
Proof.
  intros L db email password lookup.
  unfold App.verify, Config.verify. fold lookup.
  split; [intros ->; now split|].
  split; [intros user -> ->; now split|].
  intros message.
  destruct lookup as [[user|]|e].
  - destruct (bcrypt_compare L password (User.password user));
      intros [H | H]; now inversion H.
  - intros [H | H]; now inversion H.
  - intros [H | H]; discriminate.
Qed.

Lemma verify_failure_is_generic_witness :
  App.verify Demo.libs Demo.db "nobody@x.com" "pw123456" =
    DoneFail "Incorrect email or password" /\
  App.verify Demo.libs Demo.db "Alice@X.com" "wrong" =
    DoneFail "Incorrect email or password".
Proof.
  split.
  - exact (proj1 (proj1 (verify_failure_is_generic Demo.libs Demo.db
                           "nobody@x.com" "pw123456") eq_refl)).
  - exact (proj1 (proj1 (proj2 (verify_failure_is_generic Demo.libs Demo.db
                                  "Alice@X.com" "wrong"))
                    Demo.alice eq_refl eq_refl)).
Defined.

(** ** Registration *)

Lemma strict_eq_false_iff (a b : option string) :
  strict_eq a b = false <-> a <> b.
Proof.
  destruct a as [x|], b as [y|]; simpl.
  - rewrite String.eqb_neq. split; [intros H [= E]; now apply H | intros H E; apply H; now f_equal].
  - split; [discriminate | reflexivity].
  - split; [discriminate | reflexivity].
  - split; [discriminate | intros H; now elim H].
Qed.

(** The register handler itself, once a request reaches it. *)
Lemma register_handler_on_mismatch (L : Libs) (db : UserModel.Db)
    (body : RegisterBody.t) (file : option string) (oid salt : string) :
  RegisterBody.password body <> RegisterBody.confirmPassword body ->
  App.register L db body file oid salt =
    (mkReply [("error", "Passwords do not match")]
             (Redirect "/auth/register"), db) /\
  Config.register L db body file oid salt =
    (mkReply [("error", "Passwords do not match")]
             (Redirect "/auth/register"), db).
Proof.
  intros H. apply strict_eq_false_iff in H.
  unfold App.register, Config.register. rewrite H. now split.
Qed.

(** C5, as worded, does not hold: a registration with a mistyped
    confirmation and a script in the avatar field never reaches the
    register handler.  [upload.single('avatar')] refuses the file, and the
    answer is the error page with status 500, not a redirect to the
    form. *)
Lemma mismatch_with_refused_avatar :
  RegisterBody.password Demo.body_mismatch <>
    RegisterBody.confirmPassword Demo.body_mismatch /\
  Server.handle Demo.libs Demo.env Demo.state (Session.mk None [] [])
                (Server.POST_register Demo.body_mismatch
                                      (Some Demo.script_avatar)) =
    (Server.Rendered 500 "error"
       (Server.ErrorData "Invalid file type" (Some "at app.js"))
       (Some (Server.mkLocals None [] [])),
     Session.mk None [] [], Demo.state) /\
  ~ Stated.mismatch_is_redirected Demo.libs.
Proof.
  split; [discriminate|]. split; [reflexivity|].
  intros H.
  destruct (H Demo.env Demo.state (Session.mk None [] []) Demo.body_mismatch
              (Some Demo.script_avatar)) as (_ & R & _);
    [discriminate | discriminate R].
Qed.

(** C5. A registration whose confirmation differs from the password
    never creates a user: the database is left as it was, whatever the
    session and the file sent along.  When the request gets past the
    middleware in front of the handler (the principal of the session can
    be restored, and [upload.single('avatar')] lets the request through),
    the answer is the redirect to the registration form with the flashed
    error [Passwords do not match], and the register handler answers so in
    the application and in the [config/database.js] variant.  When
    [upload.single('avatar')] refuses the file, the answer is the error
    handler's instead. *)
Theorem register_password_mismatch :
  forall (L : Libs) (env : Server.Env) (st : Server.State) (s : Session.t)
         (body : RegisterBody.t) (file : option Upload.File),
    RegisterBody.password body <> RegisterBody.confirmPassword body ->
    let result := Server.handle L env st s (Server.POST_register body file) in
    Server.db (snd result) = Server.db st /\
    (forall (user : option User.t) (s1 : Session.t)
            (stored : option string) (d : Upload.disk),
       Server.passport_session (Server.db st) s = Ok (user, s1) ->
       Upload.single App.upload "avatar" (Server.stamp env) (Server.disk st)
                     file = (Ok stored, d) ->
       result =
         (Server.Redirected "/auth/register",
          Session.mk (Session.user s1) ["Passwords do not match"] [],
          Server.mkState (Server.db st) (Server.jobs st)
                         (Server.applications st) d)) /\
    (forall (user : option User.t) (s1 : Session.t) (err : error)
            (d : Upload.disk),
       Server.passport_session (Server.db st) s = Ok (user, s1) ->
       Upload.single App.upload "avatar" (Server.stamp env) (Server.disk st)
                     file = (Throw err, d) ->
       fst result =
         Server.errorHandler env
           (Some (Server.mkLocals user (Session.error s1) (Session.success s1)))
           (Session.mk (Session.user s1) [] []) err) /\
    (forall (db : UserModel.Db) (stored : option string) (oid salt : string),
       App.register L db body stored oid salt =
         (mkReply [("error", "Passwords do not match")]
                  (Redirect "/auth/register"), db) /\
       Config.register L db body stored oid salt =
         (mkReply [("error", "Passwords do not match")]
                  (Redirect "/auth/register"), db)).
Proof.
  intros L env st s body file H result. subst result.
  unfold Server.handle.
  destruct (Server.passport_session (Server.db st) s) as [[user s1]|e].
  - unfold Server.fill_locals. cbn [Server.route].
    destruct (Upload.single App.upload "avatar" (Server.stamp env)
                (Server.disk st) file) as [[stored|err] d].
    + rewrite (proj1 (register_handler_on_mismatch L (Server.db st) body
                        stored (Server.oid env) (Server.salt env) H)).
      cbn. split; [reflexivity|]. split; [|split].
      * intros user' s1' stored' d' [= <- <-] [= <- <-]. reflexivity.
      * intros user' s1' err' d' _ [=].
      * intros db stored' oid salt.
        now apply register_handler_on_mismatch.
    + cbn. split; [reflexivity|]. split; [|split].
      * intros user' s1' stored' d' _ [=].
      * intros user' s1' err' d' [= <- <-] [= <- <-]. reflexivity.
      * intros db stored' oid salt.
        now apply register_handler_on_mismatch.
  - cbn. split; [reflexivity|]. split; [|split].
    + intros user' s1' stored' d' [=].
    + intros user' s1' err' d' [=].
    + intros db stored' oid salt. now apply register_handler_on_mismatch.
Qed.

Lemma register_password_mismatch_witness :
  Server.handle Demo.libs Demo.env Demo.state Demo.visitor
                (Server.POST_register Demo.body_mismatch None) =
    (Server.Redirected "/auth/register",
     Session.mk None ["Passwords do not match"] [], Demo.state) /\
  Config.register Demo.libs Demo.db Demo.body_mismatch None "65a2" "salt" =
    (mkReply [("error", "Passwords do not match")]
             (Redirect "/auth/register"), Demo.db).
Proof.
  destruct (register_password_mismatch Demo.libs Demo.env Demo.state
              Demo.visitor Demo.body_mismatch None)
    as (_ & Form & _ & Handler); [discriminate|].
  split.
  - exact (Form None Demo.visitor None [] eq_refl eq_refl).
  - exact (proj2 (Handler Demo.db None "65a2" "salt")).
Defined.

(** ** Start-up *)

(** C8. When the first connection to the database fails, [connectDB]
    sets the exit status to 1 after that single attempt: no second call
    of [mongoose.connect] is made, whatever a retry would have met, and
    in the [config/database.js] variant nothing is mounted. *)
Theorem connect_failure_exits :
  forall (network : nat -> bool) (w : Proc.t),
    network (Proc.connects w) = false ->
    (Proc.exited (App.connectDB network w) = Some 1%Z /\
     Proc.connects (App.connectDB network w) = S (Proc.connects w)) /\
    (Proc.exited (Config.connectDB network w) = Some 1%Z /\
     Proc.connects (Config.connectDB network w) = S (Proc.connects w) /\
     Proc.mounted (Config.connectDB network w) = Proc.mounted w).
Proof.
  intros network w H.
  unfold App.connectDB, Config.connectDB, Proc.mongoose_connect.
  rewrite H. simpl. repeat split.
Qed.

Lemma connect_failure_exits_witness :
  Proc.exited (App.connectDB Demo.flaky Demo.fresh) = Some 1%Z /\
  Proc.connects (App.connectDB Demo.flaky Demo.fresh) = 1 /\
  Proc.exited (Config.connectDB Demo.flaky Demo.fresh) = Some 1%Z.
Proof.
  destruct (connect_failure_exits Demo.flaky Demo.fresh eq_refl)
    as ((E1 & C1) & (E2 & _)).
  repeat split; assumption.
Defined.

(** ** Email normalisation *)

Section Normalisation.

Lemma trimStart_idem (s : string) : trimStart (trimStart s) = trimStart s.
Proof.
  induction s as [|c s IH]; simpl; [reflexivity|].
  destruct (is_space c) eqn:E; [exact IH | simpl; now rewrite E].
Qed.

Lemma trimEnd_idem (s : string) : trimEnd (trimEnd s) = trimEnd s.
Proof.
  induction s as [|c s IH]; simpl; [reflexivity|].
  destruct (is_space c && (trimEnd s =? "")) eqn:E; [reflexivity|].
  simpl. now rewrite IH, E.
Qed.

Lemma trimStart_trimEnd (s : string) :
  trimStart (trimEnd s) = trimEnd (trimStart s).
Proof.
  induction s as [|c s IH]; simpl; [reflexivity|].
  destruct (is_space c) eqn:E; simpl.
  - destruct (String.eqb_spec (trimEnd s) "") as [Z | NZ]; simpl.
    + rewrite <- IH, Z. reflexivity.
    + now rewrite E.
  - now rewrite E.
Qed.

Lemma trim_idem (s : string) : trim (trim s) = trim s.
Proof.
  unfold trim.
  now rewrite trimStart_trimEnd, trimStart_idem, trimEnd_idem.
Qed.

Lemma email_setter_toLowerCase (s : string) :
  UserModel.email_setter (toLowerCase s) = UserModel.email_setter s.
Proof. unfold UserModel.email_setter. now rewrite toLowerCase_idem. Qed.

Lemma email_setter_idem (s : string) :
  UserModel.email_setter (UserModel.email_setter s) = UserModel.email_setter s.
Proof.
  unfold UserModel.email_setter.
  now rewrite <- trim_toLowerCase, toLowerCase_idem, trim_idem.
Qed.

(** A stored email is a fixed point of [toLowerCase]. *)
Lemma normal_email_is_lowercase (s : string) :
  UserModel.email_setter s = s -> toLowerCase s = s.
Proof.
  intros H. rewrite <- H at 1. unfold UserModel.email_setter.
  rewrite <- trim_toLowerCase, toLowerCase_idem. exact H.
Qed.

(** However the query is cast, a lower-cased email that agrees with a
    stored one up to case is the stored one. *)
Lemma cast_query_hits (rs : bool) (e stored : string) :
  UserModel.email_setter stored = stored ->
  toLowerCase e = toLowerCase stored ->
  UserModel.cast_email_query rs (toLowerCase e) = stored.
Proof.
  intros Hn He. unfold UserModel.cast_email_query.
  rewrite He, (normal_email_is_lowercase _ Hn). now destruct rs.
Qed.

Lemma build_email (oid : string) (o : User.fields) (doc : User.t) :
  UserModel.build oid o = Ok doc ->
  User.email doc = UserModel.email_setter (User.f_email o).
Proof.
  unfold UserModel.build.
  destruct (_ && _); [|discriminate].
  destruct (User.f_name o); [|discriminate].
  intros [= <-]. reflexivity.
Qed.

Lemma save_appends (db db' : UserModel.Db) (oid : string) (o : User.fields) :
  UserModel.save db oid o = Ok db' ->
  exists doc,
    UserModel.users db' = UserModel.users db ++ [doc] /\
    User.email doc = UserModel.email_setter (User.f_email o).
Proof.
  unfold UserModel.save, bind.
  destruct (UserModel.build oid o) as [doc|] eqn:B; [|discriminate].
  destruct (negb _); [discriminate|].
  destruct (existsb _ _); [discriminate|].
  intros [= <-]. exists doc. split; [reflexivity | exact (build_email oid o doc B)].
Qed.

(** What either register handler can do to the collection: nothing, or
    one more document whose email is the normalised input. *)
Lemma register_effect (L : Libs) (db db' : UserModel.Db) (body : RegisterBody.t)
    (file : option string) (oid salt : string) (r : reply) :
  App.register L db body file oid salt = (r, db') \/
  Config.register L db body file oid salt = (r, db') ->
  db' = db \/
  exists e doc,
    RegisterBody.email body = Some e /\
    UserModel.users db' = UserModel.users db ++ [doc] /\
    User.email doc = UserModel.email_setter e.
Proof.
  unfold App.register, Config.register, bind, deref.
  destruct (negb _); [intros [[= _ <-] | [= _ <-]]; now left|].
  destruct (RegisterBody.email body) as [e|];
    [|intros [[= _ <-] | [= _ <-]]; now left].
  destruct (UserModel.findOne _ _ _) as [[existing|]|err];
    try (intros [[= _ <-] | [= _ <-]]; now left).
  destruct (RegisterBody.password body) as [pw|];
    [|intros [[= _ <-] | [= _ <-]]; now left].
  intros [H | H].
  - destruct (UserModel.save db oid _) as [db1|err] eqn:S;
      [|injection H as _ <-; now left].
    injection H as _ <-. right.
    destruct (save_appends _ _ _ _ S) as (doc & Hu & He).
    exists e, doc. repeat split; [exact Hu|].
    rewrite He. cbn [User.f_email]. apply email_setter_toLowerCase.
  - destruct (UserModel.save db oid _) as [db1|err] eqn:S;
      [|injection H as _ <-; now left].
    injection H as _ <-. right.
    destruct (save_appends _ _ _ _ S) as (doc & Hu & He).
    exists e, doc. repeat split; [exact Hu|].
    rewrite He. cbn [User.f_email]. apply email_setter_toLowerCase.
Qed.

(** Every email in the collection stays normalised. *)
Lemma register_keeps_emails_normal (L : Libs) (db db' : UserModel.Db)
    (body : RegisterBody.t) (file : option string) (oid salt : string)
    (r : reply) :
  App.register L db body file oid salt = (r, db') \/
  Config.register L db body file oid salt = (r, db') ->
  Forall (fun u => UserModel.email_setter (User.email u) = User.email u)
         (UserModel.users db) ->
  Forall (fun u => UserModel.email_setter (User.email u) = User.email u)
         (UserModel.users db').
Proof.
  intros H Inv.
  apply register_effect in H as [-> | (e & doc & _ & -> & E)];
    [exact Inv|].
  apply Forall_app. split; [exact Inv|].
  constructor; [|constructor]. rewrite E. apply email_setter_idem.
Qed.

End Normalisation.

Lemma strict_eq_refl (a : option string) : strict_eq a a = true.
Proof. destruct a; simpl; [apply String.eqb_refl | reflexivity]. Qed.

Lemma findOne_hit (rs : bool) (db : UserModel.Db) (q : string) (u : User.t) :
  UserModel.reachable db = true ->
  In u (UserModel.users db) ->
  User.email u = UserModel.cast_email_query rs q ->
  exists found, UserModel.findOne rs db q = Ok (Some found).
Proof.
  intros Hr Hin He. unfold UserModel.findOne. rewrite Hr.
  destruct (find _ (UserModel.users db)) as [found|] eqn:F.
  - now exists found.
  - apply (find_none _ _ F) in Hin. rewrite He, String.eqb_refl in Hin.
    discriminate.
Qed.

(** The original wording of C6 fails: an email sent with surrounding
    blanks is stored without them, which is not its lower-cased form. *)
Lemma stored_email_is_trimmed_too : ~ Spec.stores_lowercased_input.
Proof.
  intros H.
  specialize (H Demo.libs Demo.db Demo.body_padded None "65a2" "salt"
                " Bob@X.com " _ _ Demo.bob eq_refl eq_refl eq_refl).
  discriminate H.
Qed.

(** C6, amended. At registration the schema stores the email lower-cased
    and trimmed (the lower-cased input itself when the input has no
    surrounding white space); credential verification looks the email up
    lower-cased, so that it does not depend on the case of what was
    typed; and a registration whose email agrees up to case with the
    stored email of an existing user is turned down with
    [Email already registered], the collection unchanged. *)
Theorem register_email_normalised :
  forall (L : Libs) (db : UserModel.Db) (body : RegisterBody.t)
         (file : option string) (oid salt : string),
    (forall (e : string) (r : reply) (db' : UserModel.Db) (u : User.t),
        RegisterBody.email body = Some e ->
        App.register L db body file oid salt = (r, db') \/
        Config.register L db body file oid salt = (r, db') ->
        UserModel.users db' = UserModel.users db ++ [u] ->
        User.email u = trim (toLowerCase e) /\
        (trim e = e -> User.email u = toLowerCase e)) /\
    (forall e1 e2 pw : string,
        toLowerCase e1 = toLowerCase e2 ->
        App.verify L db e1 pw = App.verify L db e2 pw /\
        Config.verify L db e1 pw = Config.verify L db e2 pw) /\
    (forall (u : User.t) (e : string),
        UserModel.reachable db = true ->
        In u (UserModel.users db) ->
        UserModel.email_setter (User.email u) = User.email u ->
        RegisterBody.email body = Some e ->
        toLowerCase e = toLowerCase (User.email u) ->
        RegisterBody.password body = RegisterBody.confirmPassword body ->
        App.register L db body file oid salt =
          (mkReply [("error", "Email already registered")]
                   (Redirect "/auth/register"), db) /\
        Config.register L db body file oid salt =
          (mkReply [("error", "Email already registered")]
                   (Redirect "/auth/register"), db)).
Proof.
  intros L db body file oid salt. split; [|split].
  - intros e r db' u He H Hu.
    apply register_effect in H as [-> | (e' & doc & He' & Hd & Hm)].
    + exfalso. apply (f_equal (@List.length _)) in Hu.
      rewrite length_app in Hu. simpl in Hu. lia.
    + rewrite He in He'. injection He' as <-.
      rewrite Hu in Hd. apply app_inv_head in Hd. injection Hd as <-.
      split; [exact Hm|].
      intros Ht. rewrite Hm. unfold UserModel.email_setter.
      now rewrite trim_toLowerCase, Ht.
  - intros e1 e2 pw H. unfold App.verify, Config.verify. now rewrite H.
  - intros u e Hr Hin Hn He Hcase Hpw.
    destruct (findOne_hit (runSettersOnQuery L) db (toLowerCase e) u Hr Hin)
      as [found F].
    { symmetry. now apply cast_query_hits. }
    unfold App.register, Config.register.
    rewrite Hpw, strict_eq_refl, He. simpl. rewrite F. now split.
Qed.

Lemma register_email_normalised_witness :
  UserModel.users
    (snd (App.register Demo.libs Demo.db Demo.body_padded None "65a2" "salt")) =
    UserModel.users Demo.db ++ [Demo.bob] /\
  User.email Demo.bob = trim (toLowerCase " Bob@X.com ") /\
  App.register Demo.libs Demo.db Demo.body_alice_again None "65a3" "salt" =
    (mkReply [("error", "Email already registered")]
             (Redirect "/auth/register"), Demo.db).
Proof.
  split; [reflexivity|]. split.
  - exact (proj1 (proj1 (register_email_normalised Demo.libs Demo.db
                           Demo.body_padded None "65a2" "salt")
                    " Bob@X.com " _ _ Demo.bob eq_refl (or_introl eq_refl)
                    eq_refl)).
  - exact (proj1 (proj2 (proj2 (register_email_normalised Demo.libs Demo.db
                                  Demo.body_alice_again None "65a3" "salt"))
                    Demo.alice "ALICE@x.com" eq_refl (or_introl eq_refl)
                    eq_refl eq_refl eq_refl eq_refl)).
Defined.

(** ** Uploads *)

(** The original wording of C7 fails: the application's one allow-list
    lets a PDF through the avatar field, and the file is written. *)
Lemma pdf_avatar_is_accepted : ~ Spec.rejects_outside_allow_list App.upload.
Proof.
  intros H.
  destruct (H "1700000000000" [] Demo.pdf_avatar eq_refl) as [e E].
  vm_compute in E. discriminate E.
Qed.

(** C7, amended. A file whose declared MIME type is outside the
    uploader's allow-list is refused before anything is written: the
    disk is left as it was.  The application has one allow-list for every
    field, avatar and resume alike: image/jpeg, image/png and
    application/pdf.  The [config/database.js] uploader refuses every
    file whose MIME type contains none of jpeg, jpg, png, gif. *)
Theorem upload_type_filter :
  (forall (field stamp : string) (d : Upload.disk) (file : Upload.File),
      ~ In (Upload.mimetype file)
           ["image/jpeg"; "image/png"; "application/pdf"] ->
      Upload.single App.upload field stamp d (Some file) =
        (Throw (if Upload.fieldname file =? field
                then JsError "Invalid file type"
                else MulterError "LIMIT_UNEXPECTED_FILE"), d)) /\
  (forall (L : Libs) (dir field stamp : string) (d : Upload.disk)
          (file : Upload.File),
      Config.filetypes_test (Upload.mimetype file) = false ->
      Upload.single (Config.upload L dir) field stamp d (Some file) =
        (Throw (if Upload.fieldname file =? field
                then JsError "Error: Images Only!"
                else MulterError "LIMIT_UNEXPECTED_FILE"), d)).
Proof.
  split.
  - intros field stamp d file Hout. unfold Upload.single.
    destruct (Upload.fieldname file =? field); [|reflexivity]. simpl.
    unfold App.fileFilter, array_includes, App.allowedTypes.
    destruct (existsb _ _) eqn:E; [|reflexivity].
    exfalso. apply Hout. apply existsb_exists in E as (m & Hin & Hm).
    apply String.eqb_eq in Hm. now subst m.
  - intros L dir field stamp d file Hm. unfold Upload.single.
    destruct (Upload.fieldname file =? field); [|reflexivity]. simpl.
    unfold Config.fileFilter. now rewrite Hm.
Qed.

Lemma upload_type_filter_witness :
  Upload.single App.upload "avatar" "1700000000000" []
                (Some Demo.script_avatar) =
    (Throw (JsError "Invalid file type"), []) /\
  Upload.single (Config.upload Demo.libs "/srv/public/uploads") "avatar"
                "1700000000000" [] (Some Demo.script_avatar) =
    (Throw (JsError "Error: Images Only!"), []).
Proof.
  split.
  - apply (proj1 upload_type_filter "avatar" "1700000000000" []
             Demo.script_avatar).
    simpl. intros [H | [H | [H | []]]]; discriminate H.
  - apply (proj2 upload_type_filter Demo.libs "/srv/public/uploads" "avatar"
             "1700000000000" [] Demo.script_avatar).
    reflexivity.
Defined.

(** ** Job search: the filters *)

(** C3, the defect. A posting made without a location field passes
    validation and enters the registry with [location] undefined; the next
    search that names a location then throws on
    [job.location.toLowerCase()] and is answered by the error handler
    instead of the list of matching jobs. *)
Theorem search_location_crash :
  let registry :=
    snd (App.post_job [] (Some Demo.alice) Demo.body_without_location
                      1700000000000 1700000000000) in
  registry =
    [Job.mk 1700000000000 "65a1" (Some "Developer") (Some "Acme")
            (Some "Writes programs") None None 1700000000000] /\
  App.get_jobs registry (Query.mk None (Some "pune") None) =
    mkReply [] (NextError TypeError).
Proof. split; reflexivity. Qed.

(** C10, the defect. On the same registry a search for page 0 that names
    a location is answered by the error handler as well, not by an empty
    page. *)
Theorem page_zero_location_crash :
  let registry :=
    snd (App.post_job [] (Some Demo.alice) Demo.body_without_location
                      1700000000000 1700000000000) in
  App.get_jobs registry (Query.mk None (Some "pune") (Some 0%Z)) =
    mkReply [] (NextError TypeError).
Proof. reflexivity. Qed.

Section Filters.

Lemma filterE_total {A} (f : A -> Exc bool) (g : A -> bool) (l : list A) :
  (forall x, In x l -> f x = Ok (g x)) ->
  filterE f l = Ok (filter g l).
Proof.
  induction l as [|x l IH]; intros H; simpl; [reflexivity|].
  rewrite (H x (or_introl eq_refl)). simpl.
  rewrite IH by (intros y Hy; apply H; now right). reflexivity.
Qed.

Lemma filter_all {A} (g : A -> bool) (l : list A) :
  (forall x, In x l -> g x = true) -> filter g l = l.
Proof.
  induction l as [|x l IH]; intros H; simpl; [reflexivity|].
  rewrite (H x (or_introl eq_refl)), IH; [reflexivity|].
  intros y Hy. apply H. now right.
Qed.

Lemma matches_search_total (term : string) (job : Job.t) :
  Spec.has_text job ->
  App.matches_search term job = Ok (keep_search term job).
Proof.
  intros (Ht & Hd). unfold App.matches_search, keep_search.
  destruct (Job.title job) as [t|]; [|now elim Ht].
  destruct (Job.description job) as [d|]; [|now elim Hd].
  simpl. now destruct (includes (toLowerCase term) (toLowerCase t)).
Qed.

Lemma matches_location_total (term : string) (job : Job.t) :
  Spec.has_location job ->
  App.matches_location term job = Ok (keep_location term job).
Proof.
  unfold Spec.has_location, App.matches_location, keep_location.
  intros Hl. destruct (Job.location job) as [l|]; [reflexivity | now elim Hl].
Qed.

Lemma keep_search_empty (job : Job.t) :
  Spec.has_text job -> keep_search "" job = true.
Proof.
  intros (Ht & Hd). unfold keep_search.
  destruct (Job.title job) as [t|]; [|now elim Ht].
  destruct (Job.description job) as [d|]; [|now elim Hd].
  simpl. now rewrite includes_empty.
Qed.

Lemma keep_location_empty (job : Job.t) :
  Spec.has_location job -> keep_location "" job = true.
Proof.
  unfold Spec.has_location, keep_location. intros Hl.
  destruct (Job.location job) as [l|]; [|now elim Hl].
  simpl. apply includes_empty.
Qed.

(** One filtering step goes through when the jobs carry the fields that
    a supplied term is matched against. *)
Lemma filter_if_total (P : Job.t -> Prop) (v : option string)
    (f : string -> Job.t -> Exc bool) (keep : string -> Job.t -> bool)
    (arr : list Job.t) :
  (forall term job, P job -> f term job = Ok (keep term job)) ->
  (forall job, P job -> keep "" job = true) ->
  (v <> None -> Forall P arr) ->
  App.filter_if v f arr = Ok (filter (keep_if v keep) arr).
Proof.
  intros Hf He Hall. unfold App.filter_if, keep_if. destruct v as [term|].
  - assert (HP : forall x, In x arr -> P x).
    { apply Forall_forall, Hall. discriminate. }
    destruct (String.eqb_spec term "") as [-> | Hne]; simpl.
    + rewrite filter_all; [reflexivity|]. intros x Hx. apply He, HP, Hx.
    + apply filterE_total. intros x Hx. apply Hf, HP, Hx.
  - rewrite filter_all; reflexivity.
Qed.

Lemma keep_search_iff (term : string) (job : Job.t) :
  Spec.has_text job ->
  (keep_search term job = true <->
   Spec.field_matches term (Job.title job) \/
   Spec.field_matches term (Job.description job)).
Proof.
  intros (Ht & Hd). unfold keep_search, Spec.field_matches.
  destruct (Job.title job) as [t|]; [|now elim Ht].
  destruct (Job.description job) as [d|]; [|now elim Hd].
  rewrite orb_true_iff, !includes_toLowerCase_iff. split.
  - intros [H | H]; [left; now exists t | right; now exists d].
  - intros [(s & [= <-] & H) | (s & [= <-] & H)]; [now left | now right].
Qed.

Lemma keep_location_iff (term : string) (job : Job.t) :
  keep_location term job = true <-> Spec.field_matches term (Job.location job).
Proof.
  unfold keep_location, Spec.field_matches.
  destruct (Job.location job) as [l|].
  - rewrite includes_toLowerCase_iff. split.
    + intros H. now exists l.
    + intros (s & [= <-] & H). exact H.
  - split; [discriminate | intros (s & [= ] & _)].
Qed.

(** The two steps together. *)
Lemma filter_jobs_total (jobs : list Job.t) (q : Query.t) :
  (Query.search q <> None -> Forall Spec.has_text jobs) ->
  (Query.location q <> None -> Forall Spec.has_location jobs) ->
  App.filter_jobs jobs q =
    Ok (filter (keep_if (Query.location q) keep_location)
          (filter (keep_if (Query.search q) keep_search) jobs)) /\
  forall job,
    In job (filter (keep_if (Query.location q) keep_location)
              (filter (keep_if (Query.search q) keep_search) jobs)) <->
    In job jobs /\ Spec.job_matches q job.
Proof.
  intros Hs Hl. split.
  - unfold App.filter_jobs.
    rewrite (filter_if_total Spec.has_text _ _ keep_search jobs
               matches_search_total keep_search_empty Hs).
    simpl.
    apply (filter_if_total Spec.has_location _ _ keep_location _
             matches_location_total keep_location_empty).
    intros Hne. specialize (Hl Hne). rewrite Forall_forall in *.
    intros x Hx. apply filter_In in Hx. now apply Hl.
  - intros job. rewrite !filter_In. unfold Spec.job_matches, keep_if. split.
    + intros [[Hin Hks] Hkl]. split; [exact Hin|]. split.
      * intros term Hq. rewrite Hq in Hks.
        apply keep_search_iff; [|exact Hks].
        assert (Hne : Query.search q <> None) by (rewrite Hq; discriminate).
        specialize (Hs Hne). rewrite Forall_forall in Hs. now apply Hs.
      * intros term Hq. rewrite Hq in Hkl. now apply keep_location_iff.
    + intros [Hin [Hms Hml]]. repeat split; [exact Hin | |].
      * destruct (Query.search q) as [term|] eqn:Hq; [|reflexivity].
        apply keep_search_iff; [|now apply Hms].
        assert (Hne : Some term <> None) by discriminate.
        specialize (Hs Hne). rewrite Forall_forall in Hs. now apply Hs.
      * destruct (Query.location q) as [term|]; [|reflexivity].
        apply keep_location_iff. now apply Hml.
Qed.

End Filters.

(** X1. For search terms that are single strings and jobs whose fields
    are strings or absent: when the jobs of the registry carry the fields
    that the supplied terms are matched against (title and description
    for the free-text term, location for the location term), the search
    returns exactly the matching jobs, in registry order: the free-text
    term is matched without regard to case against the title or the
    description, the location term against the location, and both
    conditions apply when both terms are given.  A field or a term that
    is present but no string (a number or an array from a JSON body, a
    repeated query parameter) is outside this statement: there
    [toLowerCase] fails. *)
Theorem search_filter_on_complete_jobs :
  forall (jobs : list Job.t) (q : Query.t),
    (Query.search q <> None -> Forall Spec.has_text jobs) ->
    (Query.location q <> None -> Forall Spec.has_location jobs) ->
    exists matching,
      App.filter_jobs jobs q = Ok matching /\
      matching =
        filter (keep_if (Query.location q) keep_location)
               (filter (keep_if (Query.search q) keep_search) jobs) /\
      forall job, In job matching <-> In job jobs /\ Spec.job_matches q job.
Proof.
  intros jobs q Hs Hl.
  destruct (filter_jobs_total jobs q Hs Hl) as [E H].
  eexists. split; [exact E|]. split; [reflexivity | exact H].
Qed.

Lemma search_filter_on_complete_jobs_witness :
  exists matching,
    App.filter_jobs Demo.jobs25 (Query.mk (Some "DEV") (Some "pune") None) =
      Ok matching /\
    forall job,
      In job matching <->
      In job Demo.jobs25 /\
      Spec.job_matches (Query.mk (Some "DEV") (Some "pune") None) job.
Proof.
  destruct (search_filter_on_complete_jobs Demo.jobs25
              (Query.mk (Some "DEV") (Some "pune") None))
    as (matching & E & _ & H).
  - intros _. unfold Demo.jobs25. apply Forall_forall. intros x Hx.
    apply in_map_iff in Hx as (n & <- & _).
    split; discriminate.
  - intros _. unfold Demo.jobs25. apply Forall_forall. intros x Hx.
    apply in_map_iff in Hx as (n & <- & _).
    discriminate.
  - exists matching. split; [exact E | exact H].
Defined.

(** ** Registries built by the post-job route *)

Section PostedRegistries.

Lemma post_job_effect (jobs : list Job.t) (user : option User.t)
    (body : JobBody.t) (now created : Z) :
  snd (App.post_job jobs user body now created) = jobs \/
  exists u,
    user = Some u /\
    App.validate_errors body = [] /\
    snd (App.post_job jobs user body now created) =
      jobs ++ [Job.mk now (User.id u)
                      (JobBody.title body) (JobBody.company body)
                      (JobBody.description body) (JobBody.requirements body)
                      (JobBody.location body) created].
Proof.
  unfold App.post_job.
  destruct user as [u|]; simpl; [|now left].
  destruct (App.validateJob body) eqn:V; [now left|].
  right. exists u. repeat split. now apply validateJob_passes_iff.
Qed.

Lemma validated_body_has_text (body : JobBody.t) :
  App.validate_errors body = [] ->
  JobBody.title body <> None /\ JobBody.description body <> None.
Proof.
  unfold App.validate_errors. intros H.
  apply app_eq_nil in H as [Ht H]. apply app_eq_nil in H as [_ Hd].
  split; intros E; [rewrite E in Ht | rewrite E in Hd]; discriminate.
Qed.

(** Every job the route has appended carries a title and a description. *)
Lemma posted_has_text (jobs : list Job.t) :
  Spec.posted jobs -> Forall Spec.has_text jobs.
Proof.
  induction 1 as [|jobs user body now created _ IH]; [constructor|].
  destruct (post_job_effect jobs user body now created)
    as [-> | (u & _ & V & ->)]; [exact IH|].
  apply Forall_app. split; [exact IH|].
  constructor; [|constructor].
  exact (validated_body_has_text body V).
Qed.

End PostedRegistries.

(** X5. On every registry that the post-job route builds from bodies of
    text fields (every field a string or absent, as the HTML form sends
    them), a search without a location term and with at most one
    free-text term goes through and returns exactly the jobs whose title
    or description contains the free-text term, case disregarded (every
    job when no term is given).  Bodies with a number or an array for a
    title are outside this statement: they pass [validateJob] too, and
    the search then fails on them. *)
Theorem search_on_posted_registry :
  forall (jobs : list Job.t) (q : Query.t),
    Spec.posted jobs ->
    Query.location q = None ->
    exists matching,
      App.filter_jobs jobs q = Ok matching /\
      forall job, In job matching <-> In job jobs /\ Spec.job_matches q job.
Proof.
  intros jobs q Hp Hl.
  destruct (filter_jobs_total jobs q) as [E H].
  - intros _. now apply posted_has_text.
  - intros Hne. now elim Hne.
  - eexists. split; [exact E | exact H].
Qed.

Lemma search_on_posted_registry_witness :
  exists matching,
    App.filter_jobs
      (snd (App.post_job [] (Some Demo.alice) Demo.body_without_location 1 1))
      (Query.mk (Some "DEV") None None) = Ok matching /\
    forall job,
      In job matching <->
      In job (snd (App.post_job [] (Some Demo.alice)
                                Demo.body_without_location 1 1)) /\
      Spec.job_matches (Query.mk (Some "DEV") None None) job.
Proof.
  apply search_on_posted_registry.
  - apply Spec.posted_step. apply Spec.posted_nil.
  - reflexivity.
Defined.

(** X2. A search for page 0 whose filters go through shows an empty page,
    with [hasPrev] unset and [hasNext] set exactly when some job matches. *)
Theorem page_zero_is_empty :
  forall (jobs matching : list Job.t) (q : Query.t),
    App.filter_jobs jobs q = Ok matching ->
    Query.page q = Some 0%Z ->
    exists pg,
      App.get_jobs jobs q = mkReply [] (Render "jobs" (JobsView [] pg)) /\
      hasPrev pg = false /\
      (hasNext pg = true <-> matching <> []).
Proof.
  intros jobs matching q Hf Hp.
  rewrite (get_jobs_of_filter jobs matching q Hf), Hp.
  change ((0 - 1) * 10 + 10)%Z with 0%Z. rewrite slice_to_zero.
  eexists. split; [reflexivity|]. cbn [hasPrev hasNext].
  split; [reflexivity|].
  rewrite ceil_div_pos_iff by lia.
  destruct matching; simpl; split; try discriminate; try reflexivity.
  intros H. now elim H.
Qed.

Lemma page_zero_is_empty_witness :
  exists pg,
    App.get_jobs Demo.jobs25 (Query.mk None (Some "pune") (Some 0%Z)) =
      mkReply [] (Render "jobs" (JobsView [] pg)) /\
    hasPrev pg = false /\
    (hasNext pg = true <-> Demo.jobs25 <> []).
Proof.
  exact (page_zero_is_empty Demo.jobs25 Demo.jobs25
           (Query.mk None (Some "pune") (Some 0%Z)) eq_refl eq_refl).
Defined.

(** X3. The last page of a non-empty result set of size N holds N mod 10
    jobs, or 10 when N is a multiple of 10. *)
Theorem last_page_size :
  forall (jobs matching : list Job.t) (q : Query.t) (p : Z),
    App.filter_jobs jobs q = Ok matching ->
    Query.page q = Some p ->
    matching <> [] ->
    p = ceil_div (Z.of_nat (List.length matching)) 10 ->
    exists page_jobs pg,
      App.get_jobs jobs q = mkReply [] (Render "jobs" (JobsView page_jobs pg)) /\
      hasNext pg = false /\
      Z.of_nat (List.length page_jobs) =
        (if (Z.of_nat (List.length matching) mod 10 =? 0)%Z
         then 10%Z
         else (Z.of_nat (List.length matching) mod 10)%Z).
Proof.
  intros jobs matching q p Hf Hp Hne Hlast.
  rewrite (get_jobs_of_filter jobs matching q Hf), Hp.
  eexists _, _. split; [reflexivity|]. cbn [hasNext].
  split; [rewrite <- Hlast; apply Z.ltb_irrefl|].
  pose proof (ceil_div_is_ceiling (Z.of_nat (List.length matching)) 10
                ltac:(lia)) as C.
  rewrite <- Hlast in C. unfold Spec.is_ceiling in C.
  assert (Hpos : (0 < Z.of_nat (List.length matching))%Z).
  { destruct matching; [now elim Hne | simpl; lia]. }
  rewrite slice_window by lia.
  rewrite length_firstn, length_skipn.
  destruct (Z.eqb_spec (Z.of_nat (List.length matching) mod 10) 0);
    Z.div_mod_to_equations; lia.
Qed.

Lemma last_page_size_witness :
  exists page_jobs pg,
    App.get_jobs Demo.jobs25 (Query.mk None None (Some 3%Z)) =
      mkReply [] (Render "jobs" (JobsView page_jobs pg)) /\
    hasNext pg = false /\
    Z.of_nat (List.length page_jobs) = 5%Z.
Proof.
  apply (last_page_size Demo.jobs25 Demo.jobs25
           (Query.mk None None (Some 3%Z)) 3%Z eq_refl eq_refl).
  - discriminate.
  - reflexivity.
Defined.

(** ** Email uniqueness *)

Lemma save_keeps_emails_unique (db db' : UserModel.Db) (oid : string)
    (o : User.fields) :
  UserModel.save db oid o = Ok db' ->
  NoDup (map User.email (UserModel.users db)) ->
  NoDup (map User.email (UserModel.users db')).
Proof.
  unfold UserModel.save, bind.
  destruct (UserModel.build oid o) as [doc|]; [|discriminate].
  destruct (negb _); [discriminate|].
  destruct (existsb _ _) eqn:E; [discriminate|].
  intros [= <-] Hnd. cbn [UserModel.users]. rewrite map_app.
  apply NoDup_app; [exact Hnd | repeat constructor; intros [] |].
  intros a Ha [<- | []].
  apply in_map_iff in Ha as (u & Hu & Hin).
  assert (X : existsb (fun u => User.email u =? User.email doc)
                      (UserModel.users db) = true).
  { apply existsb_exists. exists u. split; [exact Hin|]. now apply String.eqb_eq. }
  rewrite X in E. discriminate.
Qed.

Lemma register_saves (L : Libs) (db db' : UserModel.Db) (body : RegisterBody.t)
    (file : option string) (oid salt : string) (r : reply) :
  App.register L db body file oid salt = (r, db') \/
  Config.register L db body file oid salt = (r, db') ->
  db' = db \/ exists o, UserModel.save db oid o = Ok db'.
Proof.
  unfold App.register, Config.register, bind, deref.
  destruct (negb _); [intros [[= _ <-] | [= _ <-]]; now left|].
  destruct (RegisterBody.email body) as [e|];
    [|intros [[= _ <-] | [= _ <-]]; now left].
  destruct (UserModel.findOne _ _ _) as [[existing|]|err];
    try (intros [[= _ <-] | [= _ <-]]; now left).
  destruct (RegisterBody.password body) as [pw|];
    [|intros [[= _ <-] | [= _ <-]]; now left].
  intros [H | H];
    (destruct (UserModel.save db oid _) as [db1|err] eqn:S;
       [injection H as _ <-; right; eexists; exact S
       |injection H as _ <-; now left]).
Qed.

(** X4. No registration, accepted or refused, in either variant, makes
    two stored users share an email. *)
Theorem register_keeps_emails_unique :
  forall (L : Libs) (db db' : UserModel.Db) (body : RegisterBody.t)
         (file : option string) (oid salt : string) (r : reply),
    App.register L db body file oid salt = (r, db') \/
    Config.register L db body file oid salt = (r, db') ->
    NoDup (map User.email (UserModel.users db)) ->
    NoDup (map User.email (UserModel.users db')).
Proof.
  intros L db db' body file oid salt r H Hnd.
  apply register_saves in H as [-> | [o S]]; [exact Hnd|].
  exact (save_keeps_emails_unique db db' oid o S Hnd).
Qed.

Lemma register_keeps_emails_unique_witness :
  NoDup (map User.email
           (UserModel.users
              (snd (App.register Demo.libs Demo.db Demo.body_padded None
                                 "65a2" "salt")))).
Proof.
  apply (register_keeps_emails_unique Demo.libs Demo.db _ Demo.body_padded
           None "65a2" "salt"
           (fst (App.register Demo.libs Demo.db Demo.body_padded None
                              "65a2" "salt"))).
  - left. reflexivity.
  - repeat constructor. intros [].
Defined.

(** * The request pipeline *)

(** ** Sessions: serialising and restoring the principal *)

Section SessionFacts.

Lemma find_by_id (users : list User.t) (u : User.t) :
  NoDup (map User.id users) ->
  In u users ->
  find (fun v => User.id v =? User.id u) users = Some u.
Proof.
  induction users as [|v users IH]; intros Hnd Hin; [destruct Hin|].
  simpl in Hnd. apply NoDup_cons_iff in Hnd as [Hfresh Hnd]. simpl.
  destruct Hin as [-> | Hin].
  - now rewrite String.eqb_refl.
  - destruct (String.eqb_spec (User.id v) (User.id u)) as [E | _].
    + elim Hfresh. rewrite E. now apply in_map.
    + now apply IH.
Qed.

Lemma find_by_id_none (users : list User.t) (id : string) :
  (forall v, In v users -> User.id v <> id) ->
  find (fun v => User.id v =? id) users = None.
Proof.
  induction users as [|v users IH]; intros H; [reflexivity|]. simpl.
  destruct (String.eqb_spec (User.id v) id) as [E | _].
  - elim (H v (or_introl eq_refl) E).
  - apply IH. intros w Hw. apply H. now right.
Qed.

End SessionFacts.

(** X6. Serialising a stored user into the session and restoring it on
    a later request gives that user back, provided the collection can be
    reached and its ids are distinct; an id that no stored user carries
    restores to an anonymous request and is dropped from the session,
    without an error. *)
Theorem session_round_trip :
  forall (d : UserModel.Db) (errors notes : list string),
    UserModel.reachable d = true ->
    (forall u : User.t,
        In u (UserModel.users d) ->
        NoDup (map User.id (UserModel.users d)) ->
        Server.deserializeUser d (Server.serializeUser u) = Ok (Some u) /\
        Server.passport_session d
          (Session.mk (Some (Server.serializeUser u)) errors notes) =
          Ok (Some u, Session.mk (Some (Server.serializeUser u)) errors notes)) /\
    (forall id : string,
        (forall v, In v (UserModel.users d) -> User.id v <> id) ->
        Server.passport_session d (Session.mk (Some id) errors notes) =
          Ok (None, Session.mk None errors notes)).
Proof.
  intros d errors notes Hr. split.
  - intros u Hin Hnd.
    assert (E : Server.deserializeUser d (Server.serializeUser u) = Ok (Some u)).
    { unfold Server.deserializeUser, Server.findById, Server.serializeUser.
      now rewrite Hr, (find_by_id _ u Hnd Hin). }
    split; [exact E|].
    unfold Server.passport_session. cbn [Session.user]. now rewrite E.
  - intros id Hnone.
    unfold Server.passport_session, Server.deserializeUser, Server.findById.
    cbn [Session.user]. now rewrite Hr, (find_by_id_none _ id Hnone).
Qed.

Lemma session_round_trip_witness :
  Server.passport_session Demo.db (Session.mk (Some "65a1") [] []) =
    Ok (Some Demo.alice, Session.mk (Some "65a1") [] []) /\
  Server.passport_session Demo.db (Session.mk (Some "gone") [] []) =
    Ok (None, Session.mk None [] []).
Proof.
  destruct (session_round_trip Demo.db [] [] eq_refl) as [Hit Miss].
  split.
  - apply (Hit Demo.alice); [now left|].
    repeat constructor. intros [].
  - apply Miss. intros v [<- | []]. discriminate.
Defined.

(** ** What one request can change *)

Section RequestEffects.
Variable L : Libs.
Variable env : Server.Env.

Lemma flash_user (f : string * string) (s : Session.t) :
  Session.user (Session.flash f s) = Session.user s.
Proof.
  destruct f as [type msg]. unfold Session.flash.
  destruct (type =? "error"); [reflexivity|].
  destruct (type =? "success"); reflexivity.
Qed.

Lemma flash_each_user (fs : list (string * string)) (s : Session.t) :
  Session.user (Session.flash_each fs s) = Session.user s.
Proof.
  unfold Session.flash_each. revert s.
  induction fs as [|f fs IH]; intros s; simpl; [reflexivity|].
  now rewrite IH, flash_user.
Qed.

Lemma errorHandler_user (locals : option Server.Locals) (s : Session.t)
    (err : error) :
  Session.user (snd (Server.errorHandler env locals s err)) = Session.user s.
Proof.
  destruct err; reflexivity.
Qed.

Lemma respond_user (locals : Server.Locals) (s : Session.t) (r : reply) :
  Session.user (snd (Server.respond env locals s r)) = Session.user s.
Proof.
  unfold Server.respond. destruct (resp r); simpl.
  - apply flash_each_user.
  - apply flash_each_user.
  - rewrite errorHandler_user. apply flash_each_user.
Qed.

(** What [passport.session()] hands on. *)
Lemma passport_session_principal (d : UserModel.Db) (s s1 : Session.t)
    (user : option User.t) :
  Server.passport_session d s = Ok (user, s1) ->
  Session.error s1 = Session.error s /\
  Session.success s1 = Session.success s /\
  match user with
  | Some u =>
      In u (UserModel.users d) /\ Session.user s = Some (User.id u) /\ s1 = s
  | None => Session.user s1 = None
  end.
Proof.
  unfold Server.passport_session, Server.deserializeUser, Server.findById, bind.
  destruct (Session.user s) as [id|] eqn:Hu.
  - destruct (UserModel.reachable d); [|discriminate].
    destruct (find _ _) as [u|] eqn:F; intros [= <- <-].
    + apply find_some in F as [Hin Hid]. apply String.eqb_eq in Hid.
      repeat split; [exact Hin | now rewrite Hid].
    + repeat split.
  - intros [= <- <-]. repeat split. exact Hu.
Qed.

Lemma save_reachable (d d' : UserModel.Db) (oid : string) (o : User.fields) :
  UserModel.save d oid o = Ok d' ->
  UserModel.reachable d' = UserModel.reachable d.
Proof.
  unfold UserModel.save, bind.
  destruct (UserModel.build oid o); [|discriminate].
  destruct (negb _); [discriminate|].
  destruct (existsb _ _); [discriminate|].
  now intros [= <-].
Qed.

(** The user collection after the register handler. *)
Lemma register_users (d d' : UserModel.Db) (body : RegisterBody.t)
    (file : option string) (oid salt : string) (r : reply) :
  App.register L d body file oid salt = (r, d') ->
  UserModel.reachable d' = UserModel.reachable d /\
  (UserModel.users d' = UserModel.users d \/
   exists u, UserModel.users d' = UserModel.users d ++ [u]).
Proof.
  intros H.
  destruct (register_saves L d d' body file oid salt r (or_introl H))
    as [-> | [o S]].
  - split; [reflexivity | now left].
  - split; [exact (save_reachable _ _ _ _ S)|].
    destruct (save_appends _ _ _ _ S) as (doc & Hu & _).
    right. now exists doc.
Qed.

(** The disk after [upload.single]. *)
Lemma single_disk (o : Upload.options) (field stamp : string)
    (d : Upload.disk) (f : option Upload.File) :
  snd (Upload.single o field stamp d f) = d \/
  exists file,
    f = Some file /\
    Upload.single o field stamp d f =
      (Ok (Some (Upload.filename o stamp file)),
       d ++ [((Upload.destination o file ++ "/" ++
               Upload.filename o stamp file)%string,
              Upload.content file)]).
Proof.
  unfold Upload.single. destruct f as [file|]; [|now left].
  destruct (negb _); [now left|].
  destruct (Upload.fileFilter o file) as [[|]|err]; try (now left).
  destruct (_ <? _)%N; [now left|].
  right. now exists file.
Qed.

(** The state after the routes: the arrays are appended to, or lost
    with the process. *)
Definition arrays_after (st st' : Server.State) (owner : option User.t)
    (r : Server.Request) (out : Server.sent) : Prop :=
  (Server.applications st' = Server.applications st /\
   (Server.jobs st' = Server.jobs st \/
    exists body u,
      r = Server.POST_post_job body /\
      owner = Some u /\
      App.validate_errors body = [] /\
      Server.jobs st' =
        Server.jobs st ++
        [Job.mk (Server.now env) (User.id u)
                (JobBody.title body) (JobBody.company body)
                (JobBody.description body) (JobBody.requirements body)
                (JobBody.location body) (Server.created env)])) \/
  (r = Server.GET_about /\
   UserModel.reachable (Server.db st) = false /\
   out = Server.Rejected /\
   Server.applications st' = [] /\ Server.jobs st' = []).

Definition stores_after (st st' : Server.State) (r : Server.Request) : Prop :=
  UserModel.reachable (Server.db st') = UserModel.reachable (Server.db st) /\
  (UserModel.users (Server.db st') = UserModel.users (Server.db st) \/
   exists body file u,
     r = Server.POST_register body file /\
     UserModel.users (Server.db st') = UserModel.users (Server.db st) ++ [u]) /\
  (Server.disk st' = Server.disk st \/
   exists body file entry,
     r = Server.POST_register body (Some file) /\
     Server.disk st' = Server.disk st ++ [entry]).

Local Ltac quiet :=
  cbn; split;
  [ split; [reflexivity | split; now left]
  | left; split; [reflexivity | now left] ].

Lemma route_state (st : Server.State) (user : option User.t)
    (locals : Server.Locals) (s : Session.t) (r : Server.Request) :
  let result := Server.route L env st user locals s r in
  stores_after st (snd result) r /\
  arrays_after st (snd result) user r (fst (fst result)).
Proof.
  unfold stores_after, arrays_after.
  destruct r; cbn [Server.route]; try quiet.
  - (* about *)
    unfold Server.countDocuments.
    destruct (UserModel.reachable (Server.db st)) eqn:Up; cbn.
    + split; [split; [exact Up | split; now left]
             | left; split; [reflexivity | now left]].
    + split; [split; [exact Up | split; now left]|].
      right. repeat split.
  - (* contact *)
    destruct (Server.sent_ok env); quiet.
  - (* register *)
    destruct (single_disk App.upload "avatar" (Server.stamp env)
                (Server.disk st) file) as [Hd | (f & -> & Hd)].
    + destruct (Upload.single _ _ _ _ _) as [[stored|err] d]; simpl in Hd; subst d;
        [|quiet].
      destruct (App.register L _ _ _ _ _) as [r' db'] eqn:R. cbn.
      destruct (register_users _ _ _ _ _ _ _ R) as [Hr [Hu | [u Hu]]].
      * split; [split; [exact Hr | split; now left]
               | left; split; [reflexivity | now left]].
      * split; [split; [exact Hr | split; [|now left]]
               | left; split; [reflexivity | now left]].
        right. now exists body, file, u.
    + rewrite Hd.
      destruct (App.register L _ _ _ _ _) as [r' db'] eqn:R. cbn.
      destruct (register_users _ _ _ _ _ _ _ R) as [Hr [Hu | [u Hu]]].
      * split; [split; [exact Hr | split; [now left|]]
               | left; split; [reflexivity | now left]].
        right. now eexists body, f, _.
      * split; [split; [exact Hr | split]
               | left; split; [reflexivity | now left]].
        -- right. now exists body, (Some f), u.
        -- right. now eexists body, f, _.
  - (* post-job form *)
    destruct (App.isAuthenticated user); quiet.
  - (* post-job *)
    destruct (post_job_effect (Server.jobs st) user body (Server.now env)
                (Server.created env)) as [Hj | (u & Hu & Hv & Hj)];
      destruct (App.post_job _ _ _ _ _) as [r' jobs'] eqn:P;
      simpl in Hj; subst jobs'; [quiet|].
    cbn. split; [split; [reflexivity | split; now left]|].
    left. split; [reflexivity|]. right. now exists body, u.
  - (* dashboard *)
    destruct (App.isAuthenticated user); quiet.
Qed.

(** The same for a whole request: the owner of a new job is the stored
    user that the session's id resolves to. *)
Lemma handle_state (st : Server.State) (s : Session.t) (r : Server.Request) :
  let result := Server.handle L env st s r in
  stores_after st (snd result) r /\
  exists owner,
    arrays_after st (snd result) owner r (fst (fst result)) /\
    forall u, owner = Some u ->
      In u (UserModel.users (Server.db st)) /\
      Session.user s = Some (User.id u).
Proof.
  unfold Server.handle.
  destruct (Server.passport_session _ s) as [[user s1]|err] eqn:P.
  - unfold Server.fill_locals.
    destruct (route_state st user
                (Server.mkLocals user (Session.error s1) (Session.success s1))
                (Session.mk (Session.user s1) [] []) r) as [Hs Ha].
    split; [exact Hs|]. exists user. split; [exact Ha|].
    intros u ->.
    apply passport_session_principal in P as (_ & _ & Hin & Hid & _).
    now split.
  - cbn. split; [split; [reflexivity | split; now left]|].
    exists None. split; [|discriminate].
    left. split; [reflexivity | now left].
Qed.

End RequestEffects.

Section Principals.
Variable L : Libs.
Variable env : Server.Env.

(** The session's principal after the routes. *)
Lemma route_session_user (st : Server.State) (user : option User.t)
    (locals : Server.Locals) (s : Session.t) (r : Server.Request) :
  let s' := snd (fst (Server.route L env st user locals s r)) in
  Session.user s' = Session.user s \/
  r = Server.GET_logout /\ Session.user s' = None \/
  exists e p u,
    r = Server.POST_login (Some e) (Some p) /\
    e <> "" /\ p <> "" /\
    App.verify L (Server.db st) e p = DoneUser u /\
    Session.user s' = Some (User.id u).
Proof.
  destruct r; cbn [Server.route]; try (now left).
  - destruct (Server.countDocuments _); now left.
  - destruct (Server.sent_ok env); [now left|]. left. apply errorHandler_user.
  - (* login *)
    unfold Server.login.
    destruct email as [e|]; [|now left].
    destruct password as [p|]; [|now left].
    destruct (String.eqb_spec e "") as [-> | He]; [now left|].
    destruct (String.eqb_spec p "") as [-> | Hp]; [now left|]. cbn [orb].
    destruct (App.verify L (Server.db st) e p) as [u|msg|err] eqn:V.
    + right. right. now exists e, p, u.
    + left. reflexivity.
    + left. cbn [fst snd]. apply errorHandler_user.
  - (* register *)
    destruct (Upload.single _ _ _ _ _) as [[stored|err] d].
    + destruct (App.register L _ _ _ _ _) as [r' db']. left. apply respond_user.
    + left. apply errorHandler_user.
  - right. left. now split.
  - destruct (App.isAuthenticated user); [|now left]. left. apply respond_user.
  - destruct (App.post_job _ _ _ _ _) as [r' jobs']. left. apply respond_user.
  - left. apply respond_user.
  - destruct (App.isAuthenticated user); [|now left]. left. apply respond_user.
Qed.

Lemma verify_success (d : UserModel.Db) (e p : string) (u : User.t) :
  App.verify L d e p = DoneUser u ->
  UserModel.reachable d = true /\ In u (UserModel.users d).
Proof.
  unfold App.verify, UserModel.findOne.
  destruct (UserModel.reachable d); [|discriminate].
  destruct (find _ _) as [v|] eqn:F; [|discriminate].
  destruct (bcrypt_compare L p (User.password v)); [|discriminate].
  intros [= <-]. split; [reflexivity|]. now apply find_some in F.
Qed.

End Principals.

(** X7. A session gains a principal in one way only: a [POST
    /auth/login] whose credentials the verify callback accepts, and the
    principal is then that user's id.  After any other request, and after
    a refused login, the session's principal is what it was, or is gone. *)
Theorem session_principal_changes :
  forall (L : Libs) (env : Server.Env) (st : Server.State) (s : Session.t)
         (r : Server.Request),
    let s' := snd (fst (Server.handle L env st s r)) in
    Session.user s' = Session.user s \/
    Session.user s' = None \/
    exists e p u,
      r = Server.POST_login (Some e) (Some p) /\
      e <> "" /\ p <> "" /\
      App.verify L (Server.db st) e p = DoneUser u /\
      Session.user s' = Some (User.id u).
Proof.
  intros L env st s r. unfold Server.handle.
  destruct (Server.passport_session _ s) as [[user s1]|err] eqn:P.
  - unfold Server.fill_locals.
    destruct (route_session_user L env st user
                (Server.mkLocals user (Session.error s1) (Session.success s1))
                (Session.mk (Session.user s1) [] []) r)
      as [H | [[_ H] | H]]; cbn [Session.user] in H.
    + apply passport_session_principal in P as (_ & _ & Hp).
      destruct user as [u|].
      * destruct Hp as (_ & _ & ->). now left.
      * right. left. cbv zeta. now rewrite H.
    + right. now left.
    + right. now right.
  - left. cbn [fst snd]. apply errorHandler_user.
Qed.

(** X8. Outside production, where the session cookie is not marked
    [secure] and so is set and sent back over the plain HTTP the
    application listens on: an anonymous client whose credentials (two
    non-empty text fields) are accepted is sent to the home page with the
    user's id in its session, and its next request to the dashboard is
    answered with that user's dashboard (the ids of the collection being
    distinct).  In production the cookie is marked [secure] and this
    statement says nothing. *)
Theorem login_opens_session :
  forall (L : Libs) (env env' : Server.Env) (st : Server.State)
         (e p : string) (u : User.t) (errors notes : list string),
    Server.production env = false ->
    Server.production env' = false ->
    e <> "" -> p <> "" ->
    App.verify L (Server.db st) e p = DoneUser u ->
    NoDup (map User.id (UserModel.users (Server.db st))) ->
    let s1 := Session.mk (Some (User.id u)) [] [] in
    Server.handle L env st (Session.mk None errors notes)
                  (Server.POST_login (Some e) (Some p)) =
      (Server.Redirected "/", s1, st) /\
    Server.handle L env' st s1 Server.GET_dashboard =
      (Server.Rendered 200 "dashboard" (Server.DashboardData (Some u))
         (Some (Server.mkLocals (Some u) [] [])), s1, st).
Proof.
  intros L env env' st e p u errors notes _ _ He Hp V Hnd s1.
  destruct (verify_success L _ _ _ _ V) as [Hr Hin].
  split.
  - unfold Server.handle. cbn.
    apply String.eqb_neq in He, Hp. now rewrite He, Hp, V.
  - unfold Server.handle, Server.passport_session, Server.deserializeUser,
      Server.findById, s1.
    cbn [Session.user]. rewrite Hr, (find_by_id _ u Hnd Hin). reflexivity.
Qed.

Lemma login_opens_session_witness :
  Server.handle Demo.libs Demo.env Demo.state Demo.visitor
                (Server.POST_login (Some "Alice@X.com") (Some "pw123456")) =
    (Server.Redirected "/", Demo.alice_session, Demo.state) /\
  Server.handle Demo.libs Demo.env Demo.state Demo.alice_session
                Server.GET_dashboard =
    (Server.Rendered 200 "dashboard" (Server.DashboardData (Some Demo.alice))
       (Some (Server.mkLocals (Some Demo.alice) [] [])),
     Demo.alice_session, Demo.state).
Proof.
  apply (login_opens_session Demo.libs Demo.env Demo.env Demo.state
           "Alice@X.com" "pw123456" Demo.alice ["old error"] ["old note"]).
  - reflexivity.
  - reflexivity.
  - discriminate.
  - discriminate.
  - reflexivity.
  - repeat constructor. intros [].
Defined.

(** X9. While the database can be reached, [GET /auth/logout] always
    ends in a redirect to the home page with the principal removed from
    the session; the dashboard, the post-job form and the posting of a job
    then answer with the redirect to the login page and the message
    [Please sign in to continue], and change nothing. *)
Theorem logout_ends_access :
  forall (L : Libs) (env env' : Server.Env) (st : Server.State)
         (s : Session.t),
    UserModel.reachable (Server.db st) = true ->
    let s1 := Session.mk None [] [] in
    Server.handle L env st s Server.GET_logout =
      (Server.Redirected "/", s1, st) /\
    forall r : Server.Request,
      r = Server.GET_dashboard \/ r = Server.GET_post_job \/
      (exists body, r = Server.POST_post_job body) ->
      Server.handle L env' st s1 r =
        (Server.Redirected "/auth/login",
         Session.mk None ["Please sign in to continue"] [], st).
Proof.
  intros L env env' st s Hr s1. split.
  - unfold Server.handle, Server.passport_session, Server.deserializeUser,
      Server.findById, bind.
    destruct (Session.user s) as [id|]; [|reflexivity].
    rewrite Hr. now destruct (find _ _).
  - intros r [-> | [-> | [body ->]]]; try reflexivity.
    destruct st as [d js apps dk]. reflexivity.
Qed.

Lemma logout_ends_access_witness :
  Server.handle Demo.libs Demo.env Demo.state Demo.alice_session
                Server.GET_logout =
    (Server.Redirected "/", Session.mk None [] [], Demo.state) /\
  Server.handle Demo.libs Demo.env Demo.state (Session.mk None [] [])
                (Server.POST_post_job Demo.body_go) =
    (Server.Redirected "/auth/login",
     Session.mk None ["Please sign in to continue"] [], Demo.state).
Proof.
  destruct (logout_ends_access Demo.libs Demo.env Demo.env Demo.state
              Demo.alice_session eq_refl) as [Out Gate].
  split; [exact Out|].
  apply Gate. right. right. now exists Demo.body_go.
Defined.


(** ** Invariants of the running process *)

Section Invariants.

Lemma validated_body_ok (body : JobBody.t) :
  App.validate_errors body = [] ->
  Spec.title_ok body /\ Spec.company_ok body /\ Spec.description_ok body.
Proof.
  unfold App.validate_errors. intros H.
  apply app_eq_nil in H as [Ht H]. apply app_eq_nil in H as [Hc Hd].
  repeat split.
  - destruct (long_enough_dec (JobBody.title body) 3) as [Ok | No];
      [exact Ok|].
    apply (too_short_iff _ 3 "Title must be at least 3 characters") in No;
      [now elim No | lia].
  - destruct (company_ok_dec body) as [Ok | No]; [exact Ok|].
    apply company_error_iff in No. rewrite No in Hc. discriminate.
  - destruct (long_enough_dec (JobBody.description body) 10) as [Ok | No];
      [exact Ok|].
    apply (too_short_iff _ 10 "Description must be at least 10 characters")
      in No; [now elim No | lia].
Qed.

(** What holds of a job of the registry, given the user collection. *)
Definition job_in_order (users : list User.t) (job : Job.t) : Prop :=
  (exists u, In u users /\ User.id u = Job.userId job) /\
  (exists t, Job.title job = Some t /\ 3 <= String.length t) /\
  (exists c, Job.company job = Some c /\ c <> "") /\
  (exists d, Job.description job = Some d /\ 10 <= String.length d).

Lemma job_in_order_more_users (users more : list User.t) (job : Job.t) :
  job_in_order users job -> job_in_order (users ++ more) job.
Proof.
  intros ((u & Hin & Hid) & H). split; [|exact H].
  exists u. split; [apply in_or_app; now left | exact Hid].
Qed.

Lemma reachable_invariant (L : Libs) (st0 st : Server.State) :
  Server.started st0 ->
  Server.reachable_from L st0 st ->
  Server.applications st = [] /\
  Forall (job_in_order (UserModel.users (Server.db st))) (Server.jobs st).
Proof.
  intros [Hj Ha]. induction 1 as [|st env s r _ IH|st up _ IH].
  - rewrite Hj, Ha. split; [reflexivity | constructor].
  - destruct IH as [IHa IHj].
    destruct (handle_state L env st s r)
      as [(_ & Hu & _) (owner & Harr & Hown)].
    destruct Harr as [[Happ Hjobs] | (_ & _ & _ & Happ & Hjobs)];
      [|rewrite Happ, Hjobs; split; [reflexivity | constructor]].
    split; [now rewrite Happ|].
    assert (Grow : exists more,
               UserModel.users (Server.db (snd (Server.handle L env st s r))) =
               UserModel.users (Server.db st) ++ more).
    { destruct Hu as [-> | (_ & _ & u & _ & ->)];
        [exists []; now rewrite app_nil_r | now exists [u]]. }
    destruct Grow as [more ->].
    assert (Old : Forall (job_in_order (UserModel.users (Server.db st) ++ more))
                         (Server.jobs st)).
    { eapply Forall_impl; [|exact IHj].
      intros job. apply job_in_order_more_users. }
    destruct Hjobs as [-> | (body & u & _ & Hu' & Hv & ->)]; [exact Old|].
    destruct (Hown u Hu') as [Hin _].
    apply Forall_app. split; [exact Old|].
    constructor; [|constructor].
    destruct (validated_body_ok body Hv) as (Ht & Hc & Hd).
    split; [|repeat split; assumption].
    exists u. split; [apply in_or_app; now left | reflexivity].
  - exact IH.
Qed.

End Invariants.

(** X11. In every state that a started process reaches by serving
    requests whose bodies and queries are text fields (every field a
    string or absent), however the database comes and goes and whether or
    not a request to [/about] has ended the process in between: the
    [applications] array is empty, and every job of the registry has an
    owner in the user collection, a title of at least 3 characters (code
    units), a company, and a description of at least 10 characters.  A
    posting whose title or description is a number or an array is outside
    this statement: it passes [validateJob] whatever its length. *)
Theorem registry_invariants :
  forall (L : Libs) (st0 st : Server.State),
    Server.started st0 ->
    Server.reachable_from L st0 st ->
    Server.applications st = [] /\
    forall job : Job.t,
      In job (Server.jobs st) ->
      (exists u, In u (UserModel.users (Server.db st)) /\
                 User.id u = Job.userId job) /\
      (exists t, Job.title job = Some t /\ 3 <= String.length t) /\
      (exists c, Job.company job = Some c /\ c <> "") /\
      (exists d, Job.description job = Some d /\ 10 <= String.length d).
Proof.
  intros L st0 st Hs Hr.
  destruct (reachable_invariant L st0 st Hs Hr) as [Ha Hj].
  split; [exact Ha|]. intros job Hin.
  rewrite Forall_forall in Hj. exact (Hj job Hin).
Qed.

Lemma registry_invariants_witness :
  let st :=
    snd (Server.handle Demo.libs Demo.env Demo.state Demo.alice_session
           (Server.POST_post_job Demo.body_without_location)) in
  List.length (Server.jobs st) = 1 /\
  Server.applications st = [] /\
  forall job : Job.t,
    In job (Server.jobs st) ->
    exists u, In u (UserModel.users (Server.db st)) /\
              User.id u = Job.userId job.
Proof.
  intros st. split; [reflexivity|].
  destruct (registry_invariants Demo.libs Demo.state st) as [Ha Hj].
  - split; reflexivity.
  - apply Server.reach_request. apply Server.reach_start.
  - split; [exact Ha|]. intros job Hin. exact (proj1 (Hj job Hin)).
Defined.

(** ** What a response shows *)

Section Responses.
Variable L : Libs.
Variable env : Server.Env.

(** A page is in order when it carries the given [res.locals] and, if it
    is an error page in production mode, shows no more than one of the two
    fixed texts. *)
Definition page_in_order (locals : option Server.Locals) (out : Server.sent)
    : Prop :=
  forall status t d loc,
    out = Server.Rendered status t d loc ->
    loc = locals /\
    forall m stk,
      d = Server.ErrorData m stk ->
      Server.production env = true ->
      stk = None /\
      (m = "Something went wrong!" \/ m = "Page not found" /\ status = 404%Z).

Lemma redirect_in_order (locals : option Server.Locals) (url : string) :
  page_in_order locals (Server.Redirected url).
Proof. intros status t d loc H. discriminate H. Qed.

Lemma errorHandler_in_order (locals : option Server.Locals) (s : Session.t)
    (err : error) :
  page_in_order locals (fst (Server.errorHandler env locals s err)).
Proof.
  intros status t d loc H.
  destruct err; cbn in H; try discriminate H;
    injection H as _ _ <- <-; (split; [reflexivity|]);
    intros m stk [= <- <-] Hp; rewrite Hp; (split; [reflexivity | now left]).
Qed.

Lemma respond_in_order (locals : Server.Locals) (s : Session.t) (r : reply) :
  page_in_order (Some locals) (fst (Server.respond env locals s r)).
Proof.
  unfold Server.respond. destruct (resp r) as [url|template v|err].
  - apply redirect_in_order.
  - intros status t d loc [= _ _ <- <-]. split; [reflexivity|].
    intros m stk H. destruct v; discriminate H.
  - apply errorHandler_in_order.
Qed.

Lemma plain_page_in_order (locals : Server.Locals) (status : Z)
    (t : string) (d : Server.data) :
  (forall m stk, d <> Server.ErrorData m stk) ->
  page_in_order (Some locals) (Server.Rendered status t d (Some locals)).
Proof.
  intros Hd status' t' d' loc [= _ _ <- <-]. split; [reflexivity|].
  intros m stk H. now elim (Hd m stk).
Qed.

Lemma route_in_order (st : Server.State) (user : option User.t)
    (locals : Server.Locals) (s : Session.t) (r : Server.Request) :
  page_in_order (Some locals)
                (fst (fst (Server.route L env st user locals s r))).
Proof.
  destruct r; cbn [Server.route fst];
    try apply respond_in_order;
    try (apply plain_page_in_order; discriminate).
  - destruct (Server.countDocuments _); cbn [fst].
    + apply plain_page_in_order. discriminate.
    + intros status t d loc H. discriminate H.
  - destruct (Server.sent_ok env); cbn [fst].
    + apply redirect_in_order.
    + apply errorHandler_in_order.
  - unfold Server.login.
    destruct email as [e|]; [|apply redirect_in_order].
    destruct password as [p|]; [|apply redirect_in_order].
    destruct (_ || _); [apply redirect_in_order|].
    destruct (App.verify _ _ _ _); cbn [fst];
      [apply redirect_in_order | apply redirect_in_order
      | apply errorHandler_in_order].
  - destruct (Upload.single _ _ _ _ _) as [[stored|err] d]; cbn [fst].
    + destruct (App.register _ _ _ _ _ _). apply respond_in_order.
    + apply errorHandler_in_order.
  - apply redirect_in_order.
  - destruct (App.isAuthenticated user); cbn [fst];
      [apply respond_in_order | apply plain_page_in_order; discriminate].
  - destruct (App.post_job _ _ _ _ _). apply respond_in_order.
  - destruct (App.isAuthenticated user); cbn [fst];
      [apply respond_in_order | apply plain_page_in_order; discriminate].
  - intros status t d loc [= <- _ <- <-]. split; [reflexivity|].
    intros m stk [= <- <-] _. split; [reflexivity | now right].
Qed.





End Responses.



(** X13. In production mode every error page that is rendered carries
    no stack, and its text is [Something went wrong!], or [Page not found]
    with status 404, whatever the request, the session and the error.
    This is about rendered error pages only: a [MulterError] is answered
    before the test of [NODE_ENV], by a redirect with the flash message
    ['File upload error: ' + err.message], in production as elsewhere. *)
Theorem production_hides_errors :
  forall (L : Libs) (env : Server.Env) (st : Server.State) (s : Session.t)
         (r : Server.Request) (status : Z) (t m : string)
         (stk : option string) (loc : option Server.Locals),
    Server.production env = true ->
    fst (fst (Server.handle L env st s r)) =
      Server.Rendered status t (Server.ErrorData m stk) loc ->
    stk = None /\
    (m = "Something went wrong!" \/ m = "Page not found" /\ status = 404%Z).
Proof.
  intros L env st s r status t m stk loc Hp H.
  unfold Server.handle in H.
  destruct (Server.passport_session _ s) as [[user s1]|err].
  - unfold Server.fill_locals in H.
    exact (proj2 (route_in_order L env st user _ _ r status t _ loc H)
                 m stk eq_refl Hp).
  - exact (proj2 (errorHandler_in_order env None s err status t _ loc H)
                 m stk eq_refl Hp).
Qed.

Lemma production_hides_errors_witness :
  fst (fst (Server.handle Demo.libs Demo.prod_env Demo.state
              (Session.mk None [] [])
              (Server.POST_register Demo.body_mismatch
                                    (Some Demo.script_avatar)))) =
    Server.Rendered 500 "error"
      (Server.ErrorData "Something went wrong!" None)
      (Some (Server.mkLocals None [] [])) /\
  (@None string = None /\
   ("Something went wrong!" = "Something went wrong!" \/
    "Something went wrong!" = "Page not found" /\ 500%Z = 404%Z)).
Proof.
  split; [reflexivity|].
  exact (production_hides_errors Demo.libs Demo.prod_env Demo.state
           (Session.mk None [] [])
           (Server.POST_register Demo.body_mismatch (Some Demo.script_avatar))
           500 "error" "Something went wrong!" None
           (Some (Server.mkLocals None [] [])) eq_refl eq_refl).
Defined.

(** ** Registration with an avatar *)

Section AvatarUpload.
Variable L : Libs.
Variable env : Server.Env.

Lemma state_eta (st : Server.State) :
  Server.mkState (Server.db st) (Server.jobs st) (Server.applications st)
                 (Server.disk st) = st.
Proof. now destruct st. Qed.

(** The three ways [upload.single('avatar')] refuses a file. *)
Lemma single_wrong_field (stamp : string) (d : Upload.disk)
    (file : Upload.File) :
  Upload.fieldname file <> "avatar" ->
  Upload.single App.upload "avatar" stamp d (Some file) =
    (Throw (MulterError "LIMIT_UNEXPECTED_FILE"), d).
Proof.
  intros H. apply String.eqb_neq in H. unfold Upload.single. now rewrite H.
Qed.

Lemma allowed_type_iff (file : Upload.File) :
  array_includes App.allowedTypes (Upload.mimetype file) = true <->
  In (Upload.mimetype file) ["image/jpeg"; "image/png"; "application/pdf"].
Proof.
  unfold array_includes, App.allowedTypes. rewrite existsb_exists. split.
  - intros (m & Hin & Hm). apply String.eqb_eq in Hm. now subst m.
  - intros Hin. exists (Upload.mimetype file). split; [exact Hin|].
    apply String.eqb_refl.
Qed.

Lemma single_wrong_type (stamp : string) (d : Upload.disk)
    (file : Upload.File) :
  Upload.fieldname file = "avatar" ->
  ~ In (Upload.mimetype file) ["image/jpeg"; "image/png"; "application/pdf"] ->
  Upload.single App.upload "avatar" stamp d (Some file) =
    (Throw (JsError "Invalid file type"), d).
Proof.
  intros Hf Ht. unfold Upload.single. rewrite Hf. cbn.
  unfold App.fileFilter.
  destruct (array_includes _ _) eqn:E; [|reflexivity].
  now apply allowed_type_iff in E.
Qed.

Lemma single_too_large (stamp : string) (d : Upload.disk)
    (file : Upload.File) :
  Upload.fieldname file = "avatar" ->
  In (Upload.mimetype file) ["image/jpeg"; "image/png"; "application/pdf"] ->
  (5 * 1024 * 1024 < N.of_nat (String.length (Upload.content file)))%N ->
  Upload.single App.upload "avatar" stamp d (Some file) =
    (Throw (MulterError "LIMIT_FILE_SIZE"), d).
Proof.
  intros Hf Ht Hs. unfold Upload.single. rewrite Hf. cbn.
  unfold App.fileFilter. apply allowed_type_iff in Ht. rewrite Ht. cbn.
  change (5 * 1024 * 1024)%N with 5242880%N in Hs.
  apply N.ltb_lt in Hs. now rewrite Hs.
Qed.

Lemma single_accepted (stamp : string) (d : Upload.disk)
    (file : Upload.File) :
  Upload.fieldname file = "avatar" ->
  In (Upload.mimetype file) ["image/jpeg"; "image/png"; "application/pdf"] ->
  (N.of_nat (String.length (Upload.content file)) <= 5 * 1024 * 1024)%N ->
  Upload.single App.upload "avatar" stamp d (Some file) =
    (Ok (Some (stamp ++ "-" ++ Upload.originalname file)%string),
     d ++ [(("public/uploads/avatars/" ++ stamp ++ "-" ++
             Upload.originalname file)%string,
            Upload.content file)]).
Proof.
  intros Hf Ht Hs. unfold Upload.single. rewrite Hf. cbn.
  unfold App.fileFilter. apply allowed_type_iff in Ht. rewrite Ht. cbn.
  change (5 * 1024 * 1024)%N with 5242880%N in Hs.
  destruct (N.ltb_spec 5242880
              (N.of_nat (String.length (Upload.content file)))) as [Hlt | _];
    [lia|].
  now rewrite Hf.
Qed.

(** The avatar of the user that the register handler stores. *)
Lemma register_avatar (d d' : UserModel.Db) (body : RegisterBody.t)
    (file : option string) (oid salt : string) (r : reply) (u : User.t) :
  App.register L d body file oid salt = (r, d') ->
  UserModel.users d' = UserModel.users d ++ [u] ->
  User.avatar u =
    Some match file with
         | Some filename => ("/uploads/avatars/" ++ filename)%string
         | None => "/images/default-avatar.png"
         end.
Proof.
  intros H Hu.
  assert (Same : d' = d -> False).
  { intros ->. apply (f_equal (@List.length _)) in Hu.
    rewrite length_app in Hu. simpl in Hu. lia. }
  revert H. unfold App.register, bind, deref.
  destruct (negb _); [intros [= _ E]; now elim Same|].
  destruct (RegisterBody.email body) as [e|]; [|intros [= _ E]; now elim Same].
  destruct (UserModel.findOne _ _ _) as [[existing|]|err];
    try (intros [= _ E]; now elim Same).
  destruct (RegisterBody.password body) as [pw|];
    [|intros [= _ E]; now elim Same].
  destruct (UserModel.save d oid _) as [d1|err] eqn:S;
    [|intros [= _ E]; now elim Same].
  intros [= _ <-]. revert S. unfold UserModel.save, UserModel.build, bind.
  destruct (_ && _); [|discriminate]. cbn [User.f_name].
  destruct (RegisterBody.name body) as [n|]; [|discriminate].
  destruct (negb _); [discriminate|].
  destruct (existsb _ _); [discriminate|].
  intros [= <-]. cbn [UserModel.users] in Hu.
  apply app_inv_head in Hu. injection Hu as <-. reflexivity.
Qed.

End AvatarUpload.

(** X14. A file that [upload.single('avatar')] refuses never reaches the
    register handler, and the state is left as it was.  A file under
    another field name, and one above 5 MB, end in a redirect to the
    referring page (or the home page) with the flash message [File upload
    error: ...]; a file of a type outside the allow-list does not: its
    error is no [MulterError], so the request ends in the error page
    (status 500 unless the error carries one), which in development mode
    shows [Invalid file type]. *)
Theorem upload_errors_reach_the_error_handler :
  forall (L : Libs) (env : Server.Env) (st : Server.State) (s s1 : Session.t)
         (user : option User.t) (body : RegisterBody.t) (file : Upload.File),
    Server.passport_session (Server.db st) s = Ok (user, s1) ->
    let locals :=
      Some (Server.mkLocals user (Session.error s1) (Session.success s1)) in
    let back := Server.Redirected (or_default (Server.referrer env) "/") in
    let flashed code :=
      Session.mk (Session.user s1)
        [("File upload error: " ++ Server.message env (MulterError code))%string]
        [] in
    let result :=
      Server.handle L env st s (Server.POST_register body (Some file)) in
    (Upload.fieldname file <> "avatar" ->
       result = (back, flashed "LIMIT_UNEXPECTED_FILE", st)) /\
    (Upload.fieldname file = "avatar" ->
     In (Upload.mimetype file) ["image/jpeg"; "image/png"; "application/pdf"] ->
     (5 * 1024 * 1024 < N.of_nat (String.length (Upload.content file)))%N ->
       result = (back, flashed "LIMIT_FILE_SIZE", st)) /\
    (Upload.fieldname file = "avatar" ->
     ~ In (Upload.mimetype file)
          ["image/jpeg"; "image/png"; "application/pdf"] ->
       result =
         (Server.Rendered
            (match Server.status env (JsError "Invalid file type") with
             | Some code => if (code =? 0)%Z then 500%Z else code
             | None => 500%Z
             end)
            "error"
            (Server.ErrorData
               (if Server.production env then "Something went wrong!"
                else "Invalid file type")
               (if Server.production env then None
                else Some (Server.stack env (JsError "Invalid file type"))))
            locals,
          Session.mk (Session.user s1) [] [], st)).
Proof.
  intros L env st s s1 user body file P locals back flashed result.
  subst result. unfold Server.handle. rewrite P.
  unfold Server.fill_locals. cbn [Server.route].
  split; [|split].
  - intros Hf. rewrite (single_wrong_field _ _ _ Hf). cbn.
    now rewrite state_eta.
  - intros Hf Ht Hs. rewrite (single_too_large _ _ _ Hf Ht Hs). cbn.
    now rewrite state_eta.
  - intros Hf Ht. rewrite (single_wrong_type _ _ _ Hf Ht). cbn.
    now rewrite state_eta.
Qed.

Lemma upload_errors_reach_the_error_handler_witness :
  Server.handle Demo.libs Demo.env Demo.state Demo.visitor
    (Server.POST_register Demo.body_padded (Some Demo.png_elsewhere)) =
    (Server.Redirected "/",
     Session.mk None ["File upload error: library error"] [], Demo.state) /\
  Server.handle Demo.libs Demo.env Demo.state Demo.visitor
    (Server.POST_register Demo.body_padded (Some Demo.script_avatar)) =
    (Server.Rendered 500 "error"
       (Server.ErrorData "Invalid file type" (Some "at app.js"))
       (Some (Server.mkLocals None ["old error"] ["old note"])),
     Session.mk None [] [], Demo.state).
Proof.
  destruct (upload_errors_reach_the_error_handler Demo.libs Demo.env
              Demo.state Demo.visitor Demo.visitor None Demo.body_padded
              Demo.png_elsewhere eq_refl) as (Field & _ & _).
  destruct (upload_errors_reach_the_error_handler Demo.libs Demo.env
              Demo.state Demo.visitor Demo.visitor None Demo.body_padded
              Demo.script_avatar eq_refl) as (_ & _ & Type_).
  split.
  - apply Field. discriminate.
  - apply Type_; [reflexivity|].
    simpl. intros [H | [H | [H | []]]]; discriminate H.
Defined.

(** X15. A file that [upload.single('avatar')] accepts is written to
    [public/uploads/avatars] under the name made of the time stamp, a dash
    and the original name, before the register handler runs and whatever
    the handler then decides: the file stays on disk also when the
    registration is refused.  When a user is stored, its avatar is the
    path of that file below [public]. *)
Theorem accepted_avatar_is_kept :
  forall (L : Libs) (env : Server.Env) (st : Server.State) (s s1 : Session.t)
         (user : option User.t) (body : RegisterBody.t) (file : Upload.File),
    Server.passport_session (Server.db st) s = Ok (user, s1) ->
    Upload.fieldname file = "avatar" ->
    In (Upload.mimetype file) ["image/jpeg"; "image/png"; "application/pdf"] ->
    (N.of_nat (String.length (Upload.content file)) <= 5 * 1024 * 1024)%N ->
    let name := (Server.stamp env ++ "-" ++ Upload.originalname file)%string in
    let st' :=
      snd (Server.handle L env st s
             (Server.POST_register body (Some file))) in
    Server.disk st' =
      Server.disk st ++
      [(("public" ++ "/uploads/avatars/" ++ name)%string, Upload.content file)] /\
    forall u : User.t,
      UserModel.users (Server.db st') = UserModel.users (Server.db st) ++ [u] ->
      User.avatar u = Some ("/uploads/avatars/" ++ name)%string.
Proof.
  intros L env st s s1 user body file P Hf Ht Hs name st'.
  subst st'. unfold Server.handle. rewrite P.
  unfold Server.fill_locals. cbn [Server.route].
  rewrite (single_accepted _ _ _ Hf Ht Hs).
  destruct (App.register L _ _ _ _ _) as [r' db'] eqn:R.
  cbn [snd Server.disk Server.db]. split; [reflexivity|].
  intros u Hu. exact (register_avatar L _ _ _ _ _ _ _ u R Hu).
Qed.

Lemma accepted_avatar_is_kept_witness :
  let st' :=
    snd (Server.handle Demo.libs Demo.env Demo.state Demo.visitor
           (Server.POST_register Demo.body_mismatch (Some Demo.png_avatar))) in
  UserModel.users (Server.db st') = [Demo.alice] /\
  Server.disk st' =
    [("public/uploads/avatars/1700000000000-me.png", "PNG")].
Proof.
  intros st'. split; [reflexivity|].
  apply (accepted_avatar_is_kept Demo.libs Demo.env Demo.state Demo.visitor
           Demo.visitor None Demo.body_mismatch Demo.png_avatar eq_refl
           eq_refl).
  - simpl. right. now left.
  - vm_compute. discriminate.
Defined.

(** ** Job search: pages and terms *)

Section Pages.

(** Cutting a list into windows of ten and gluing them together again. *)
Lemma windows_cover {A} (T : nat) (l : list A) :
  List.length l <= 10 * T ->
  List.concat (map (fun k => firstn 10 (skipn (10 * k) l)) (seq 0 T)) = l.
Proof.
  revert l. induction T as [|T IH]; intros l Hl.
  - destruct l; [reflexivity | simpl in Hl; lia].
  - cbn [seq map List.concat]. rewrite <- seq_shift, map_map.
    transitivity (firstn 10 l ++ skipn 10 l); [|apply firstn_skipn].
    f_equal.
    etransitivity;
      [|apply (IH (skipn 10 l)); rewrite length_skipn; lia].
    f_equal. apply map_ext. intros k. f_equal.
    rewrite skipn_skipn. f_equal. lia.
Qed.

Lemma filter_jobs_page (jobs : list Job.t) (q : Query.t) (p : option Z) :
  App.filter_jobs jobs (Query.mk (Query.search q) (Query.location q) p) =
  App.filter_jobs jobs q.
Proof. reflexivity. Qed.

Lemma page_shown (jobs matching : list Job.t) (q : Query.t) (k : nat) :
  App.filter_jobs jobs q = Ok matching ->
  jobs_shown
    (App.get_jobs jobs
       (Query.mk (Query.search q) (Query.location q) (Some (Z.of_nat (S k))))) =
  firstn 10 (skipn (10 * k) matching).
Proof.
  intros Hf.
  rewrite (get_jobs_of_filter jobs matching _
             (eq_trans (filter_jobs_page jobs q _) Hf)).
  cbn [Query.page jobs_shown resp].
  rewrite slice_window by lia. f_equal. f_equal. lia.
Qed.

Lemma filterE_ext {A} (f g : A -> Exc bool) (l : list A) :
  (forall x, f x = g x) -> filterE f l = filterE g l.
Proof.
  intros H. induction l as [|x l IH]; simpl; [reflexivity|].
  now rewrite H, IH.
Qed.

Lemma filter_if_case (v w : option string)
    (f : string -> Job.t -> Exc bool) (arr : list Job.t) :
  option_map toLowerCase v = option_map toLowerCase w ->
  (forall a b job, toLowerCase a = toLowerCase b -> f a job = f b job) ->
  App.filter_if v f arr = App.filter_if w f arr.
Proof.
  intros H Hf. unfold App.filter_if.
  destruct v as [a|], w as [b|]; try discriminate H; [|reflexivity].
  injection H as H.
  rewrite <- (toLowerCase_empty a), <- (toLowerCase_empty b), H.
  destruct (negb _); [|reflexivity].
  apply filterE_ext. intros job. now apply Hf.
Qed.

End Pages.

(** X16. The pages of a search partition its result: showing pages 1 to
    the reported total one after the other gives every matching job
    exactly once, in the order of the registry. *)
Theorem pages_partition_results :
  forall (jobs matching : list Job.t) (q : Query.t),
    App.filter_jobs jobs q = Ok matching ->
    let total := ceil_div (Z.of_nat (List.length matching)) 10 in
    List.concat
      (map (fun p =>
              jobs_shown
                (App.get_jobs jobs
                   (Query.mk (Query.search q) (Query.location q)
                             (Some (Z.of_nat p)))))
           (seq 1 (Z.to_nat total))) = matching.
Proof.
  intros jobs matching q Hf total.
  rewrite <- seq_shift, map_map.
  rewrite (map_ext _ (fun k => firstn 10 (skipn (10 * k) matching)))
    by (intros k; now apply page_shown).
  apply windows_cover.
  pose proof (ceil_div_is_ceiling (Z.of_nat (List.length matching)) 10
                ltac:(lia)) as C.
  unfold Spec.is_ceiling in C. fold total in C. lia.
Qed.

Lemma pages_partition_results_witness :
  List.concat
    (map (fun p =>
            jobs_shown
              (App.get_jobs Demo.jobs25
                 (Query.mk (Some "dev") None (Some (Z.of_nat p)))))
         [1; 2; 3]) = Demo.jobs25.
Proof.
  exact (pages_partition_results Demo.jobs25 Demo.jobs25
           (Query.mk (Some "dev") None None) eq_refl).
Defined.

(** X17. The search does not depend on the case of its terms: two
    queries whose free-text terms agree up to case, and whose location
    terms do, get the same reply, be it a page or an error. *)
Theorem search_ignores_case_of_terms :
  forall (jobs : list Job.t) (s1 s2 l1 l2 : option string) (p : option Z),
    option_map toLowerCase s1 = option_map toLowerCase s2 ->
    option_map toLowerCase l1 = option_map toLowerCase l2 ->
    App.get_jobs jobs (Query.mk s1 l1 p) = App.get_jobs jobs (Query.mk s2 l2 p).
Proof.
  intros jobs s1 s2 l1 l2 p Hs Hl.
  assert (E : App.filter_jobs jobs (Query.mk s1 l1 p) =
              App.filter_jobs jobs (Query.mk s2 l2 p)).
  { unfold App.filter_jobs. cbn [Query.search Query.location].
    rewrite (filter_if_case s1 s2 App.matches_search jobs Hs).
    - destruct (App.filter_if s2 _ _) as [arr|err]; [|reflexivity]. simpl.
      apply (filter_if_case l1 l2 App.matches_location arr Hl).
      intros a b job H. unfold App.matches_location. now rewrite H.
    - intros a b job H. unfold App.matches_search. now rewrite H. }
  unfold App.get_jobs. now rewrite E.
Qed.

Lemma search_ignores_case_of_terms_witness :
  App.get_jobs Demo.jobs25 (Query.mk (Some "DEV") (Some "pune") (Some 2%Z)) =
  App.get_jobs Demo.jobs25 (Query.mk (Some "dev") (Some "PUNE") (Some 2%Z)).
Proof.
  apply search_ignores_case_of_terms; reflexivity.
Defined.

(** ** Registration: what is reported is what was done *)

(** X18. Both register handlers report what they did.  The reply is the
    redirect to the login page with the success message exactly when one
    user was added to the collection; with any other reply the collection
    is as it was.  The [config/database.js] handler moreover always
    answers with a redirect and one flash message, also when the database
    or the hashing fails. *)
Theorem register_reports_what_it_did :
  forall (L : Libs) (d : UserModel.Db) (body : RegisterBody.t)
         (file : option string) (oid salt : string),
    let success :=
      mkReply [("success", "Registration successful! You can now log in")]
              (Redirect "/auth/login") in
    (forall (r : reply) (d' : UserModel.Db),
        App.register L d body file oid salt = (r, d') \/
        Config.register L d body file oid salt = (r, d') ->
        r = success /\
        (exists u, UserModel.users d' = UserModel.users d ++ [u]) \/
        resp r <> Redirect "/auth/login" /\ d' = d) /\
    exists kind msg url,
      fst (Config.register L d body file oid salt) =
        mkReply [(kind, msg)] (Redirect url).
Proof.
  intros L d body file oid salt success. split.
  - intros r d'. unfold App.register, Config.register, bind, deref.
    destruct (negb _);
      [intros [[= <- <-] | [= <- <-]]; right; (split; [discriminate|reflexivity])|].
    destruct (RegisterBody.email body) as [e|];
      [|intros [[= <- <-] | [= <- <-]]; right; (split; [discriminate|reflexivity])].
    destruct (UserModel.findOne _ _ _) as [[existing|]|err];
      try (intros [[= <- <-] | [= <- <-]]; right;
           (split; [discriminate|reflexivity])).
    destruct (RegisterBody.password body) as [pw|];
      [|intros [[= <- <-] | [= <- <-]]; right; (split; [discriminate|reflexivity])].
    intros [H | H];
      (destruct (UserModel.save d oid _) as [d1|err] eqn:S;
       [injection H as <- <-; left; (split; [reflexivity|]);
        destruct (save_appends _ _ _ _ S) as (doc & Hu & _); now exists doc
       |injection H as <- <-; right; (split; [discriminate|reflexivity])]).
  - unfold Config.register, bind, deref.
    destruct (negb _); [now eexists _, _, _|].
    destruct (RegisterBody.email body) as [e|]; [|now eexists _, _, _].
    destruct (UserModel.findOne _ _ _) as [[existing|]|err];
      try (now eexists _, _, _).
    destruct (RegisterBody.password body) as [pw|]; [|now eexists _, _, _].
    destruct (UserModel.save d oid _); now eexists _, _, _.
Qed.

Lemma register_reports_what_it_did_witness :
  fst (App.register Demo.libs Demo.db Demo.body_padded None "65a2" "salt") =
    mkReply [("success", "Registration successful! You can now log in")]
            (Redirect "/auth/login") /\
  exists u,
    UserModel.users
      (snd (App.register Demo.libs Demo.db Demo.body_padded None "65a2" "salt")) =
    UserModel.users Demo.db ++ [u].
Proof.
  destruct (proj1 (register_reports_what_it_did Demo.libs Demo.db
                     Demo.body_padded None "65a2" "salt")
              (fst (App.register Demo.libs Demo.db Demo.body_padded None
                                 "65a2" "salt"))
              (snd (App.register Demo.libs Demo.db Demo.body_padded None
                                 "65a2" "salt"))
              (or_introl eq_refl)) as [[E U] | [N _]].
  - split; [exact E | exact U].
  - exfalso. apply N. reflexivity.
Defined.

(** ** Start-up, continued *)

(** X19. [connectDB] makes one connection attempt.  In the main file it
    sets the exit status to 1 exactly when the attempt fails.  In the
    [config/database.js] variant the session, passport, upload and route
    set-up sit in the same [try] block: the exit status is set to 1
    exactly when the attempt fails or one of the four set-up calls throws,
    and the process goes on exactly when the attempt succeeds and all four
    return; then the four are mounted in that order, after a failed
    attempt nothing is mounted, and a set-up call that throws leaves the
    calls before it mounted. *)
Theorem connect_outcomes :
  forall (network : nat -> bool) (setup : string -> bool) (w : Proc.t),
    Proc.exited w = None ->
    let a := App.connectDB network w in
    let c := Config.connectDB_app network setup w in
    (Proc.exited a = Some 1%Z <-> network (Proc.connects w) = false) /\
    (Proc.exited a = None <-> network (Proc.connects w) = true) /\
    Proc.connects a = S (Proc.connects w) /\
    (Proc.exited c = Some 1%Z <->
       network (Proc.connects w) = false \/
       exists what, In what Config.set_up /\ setup what = false) /\
    (Proc.exited c = None <->
       network (Proc.connects w) = true /\
       forall what, In what Config.set_up -> setup what = true) /\
    Proc.connects c = S (Proc.connects w) /\
    (network (Proc.connects w) = false -> Proc.mounted c = Proc.mounted w) /\
    (Proc.exited c = None ->
       Proc.mounted c = Proc.mounted w ++ Config.set_up /\
       c = Config.connectDB network w) /\
    (exists done, Proc.mounted c = Proc.mounted w ++ done /\
                  exists rest, Config.set_up = done ++ rest).
Proof.
  intros network setup w Hw a c. subst a c.
  unfold App.connectDB, Config.connectDB_app, Config.connectDB,
    Proc.mongoose_connect, Config.set_up.
  assert (All : forall P : string -> Prop,
             P "session" -> P "configurePassport" ->
             P "configureFileUpload" -> P "configureAuthRoutes" ->
             forall what,
               In what ["session"; "configurePassport"; "configureFileUpload";
                        "configureAuthRoutes"] -> P what).
  { intros P H1 H2 H3 H4 what [<- | [<- | [<- | [<- | []]]]]; assumption. }
  destruct (network (Proc.connects w)); cbn [Config.mount].
  - destruct (setup "session") eqn:S1;
      [destruct (setup "configurePassport") eqn:S2;
       [destruct (setup "configureFileUpload") eqn:S3;
        [destruct (setup "configureAuthRoutes") eqn:S4|]|]|];
      cbn; rewrite ?Hw;
      (split; [split; discriminate|]);
      (split; [split; reflexivity|]);
      (split; [reflexivity|]).
    + split.
      { split; [discriminate|].
        intros [E | (what & Hin & E)]; [discriminate|]. exfalso.
        exact (All (fun x => setup x = false -> False)
                 ltac:(congruence) ltac:(congruence) ltac:(congruence)
                 ltac:(congruence) what Hin E). }
      split.
      { split; [|reflexivity]. intros _. split; [reflexivity|].
        exact (All (fun x => setup x = true) S1 S2 S3 S4). }
      split; [reflexivity|]. split; [discriminate|].
      split; [intros _; split; [now rewrite <- !app_assoc | reflexivity]|].
      eexists. split; [now rewrite <- !app_assoc|]. now exists [].
    + split; [split; [intros _; right; exists "configureAuthRoutes";
                      split; [cbn; tauto | exact S4] | reflexivity]|].
      split; [split; [discriminate | intros [_ H]];
              rewrite (H "configureAuthRoutes") in S4;
              [discriminate | cbn; tauto]|].
      split; [reflexivity|]. split; [discriminate|]. split; [discriminate|].
      eexists. split; [now rewrite <- !app_assoc|]. now eexists.
    + split; [split; [intros _; right; exists "configureFileUpload";
                      split; [cbn; tauto | exact S3] | reflexivity]|].
      split; [split; [discriminate | intros [_ H]];
              rewrite (H "configureFileUpload") in S3;
              [discriminate | cbn; tauto]|].
      split; [reflexivity|]. split; [discriminate|]. split; [discriminate|].
      eexists. split; [now rewrite <- !app_assoc|]. now eexists.
    + split; [split; [intros _; right; exists "configurePassport";
                      split; [cbn; tauto | exact S2] | reflexivity]|].
      split; [split; [discriminate | intros [_ H]];
              rewrite (H "configurePassport") in S2;
              [discriminate | cbn; tauto]|].
      split; [reflexivity|]. split; [discriminate|]. split; [discriminate|].
      eexists. split; [reflexivity|]. now eexists.
    + split; [split; [intros _; right; exists "session";
                      split; [cbn; tauto | exact S1] | reflexivity]|].
      split; [split; [discriminate | intros [_ H]];
              rewrite (H "session") in S1;
              [discriminate | cbn; tauto]|].
      split; [reflexivity|]. split; [discriminate|]. split; [discriminate|].
      exists []. split; [now rewrite app_nil_r|]. now eexists.
  - cbn. rewrite ?Hw.
    split; [split; reflexivity|]. split; [split; discriminate|].
    split; [reflexivity|].
    split; [split; [intros _; now left | reflexivity]|].
    split; [split; [discriminate | intros [E _]; discriminate]|].
    split; [reflexivity|]. split; [reflexivity|]. split; [discriminate|].
    exists []. split; [now rewrite app_nil_r|]. now eexists.
Qed.

Lemma connect_outcomes_witness :
  Proc.exited (App.connectDB (fun _ => true) Demo.fresh) = None /\
  Proc.exited (Config.connectDB_app (fun _ => true)
                 (fun what => negb (what =? "configureFileUpload")%string)
                 Demo.fresh) = Some 1%Z /\
  Proc.mounted (Config.connectDB_app (fun _ => true)
                  (fun what => negb (what =? "configureFileUpload")%string)
                  Demo.fresh) = ["session"; "configurePassport"] /\
  Proc.mounted (Config.connectDB_app (fun _ => true) (fun _ => true)
                  Demo.fresh) = Config.set_up.
Proof.
  destruct (connect_outcomes (fun _ => true)
              (fun what => negb (what =? "configureFileUpload")%string)
              Demo.fresh eq_refl)
    as (_ & Up & _ & Down & _).
  destruct (connect_outcomes (fun _ => true) (fun _ => true)
              Demo.fresh eq_refl)
    as (_ & _ & _ & _ & _ & _ & _ & Mounted & _).
  split; [now apply Up|].
  split; [apply Down; right; exists "configureFileUpload";
          split; [cbn; tauto | reflexivity]|].
  split; [reflexivity|]. exact (proj1 (Mounted eq_refl)).
Defined.

(** ** The about page *)

(** X20. In every state that a started process reaches, [GET /about]
    renders the number of stored users, the number of jobs in the registry
    and 0 applications when the database can be reached.  When it cannot,
    the [catch] block of the handler calls a [next] that the handler never
    received: the handler fails there with a ReferenceError, no response
    is sent, and the unhandled rejection ends the process (Node 15 and
    later), so the job registry and the applications are empty when it
    starts again; the user collection and the uploaded files stay. *)
Theorem about_page :
  forall (L : Libs) (env : Server.Env) (st0 st : Server.State)
         (s s1 : Session.t) (user : option User.t),
    Server.started st0 ->
    Server.reachable_from L st0 st ->
    Server.passport_session (Server.db st) s = Ok (user, s1) ->
    let result := Server.handle L env st s Server.GET_about in
    (UserModel.reachable (Server.db st) = true ->
     result =
       (Server.Rendered 200 "about"
          (Server.AboutData (List.length (UserModel.users (Server.db st)))
                            (List.length (Server.jobs st)) 0)
          (Some (Server.mkLocals user (Session.error s1) (Session.success s1))),
        Session.mk (Session.user s1) [] [], st)) /\
    (UserModel.reachable (Server.db st) = false ->
     fst (fst result) = Server.Rejected /\
     snd result = Server.mkState (Server.db st) [] [] (Server.disk st)).
Proof.
  intros L env st0 st s s1 user Hs Hr P result. subst result.
  destruct (reachable_invariant L st0 st Hs Hr) as [Ha _].
  unfold Server.handle. rewrite P. unfold Server.fill_locals.
  cbn [Server.route]. unfold Server.countDocuments.
  split; intros Hup; rewrite Hup; [now rewrite Ha | now split].
Qed.

Lemma about_page_witness :
  Server.handle Demo.libs Demo.env Demo.state Demo.alice_session
                Server.GET_about =
    (Server.Rendered 200 "about" (Server.AboutData 1 0 0)
       (Some (Server.mkLocals (Some Demo.alice) [] [])),
     Demo.alice_session, Demo.state) /\
  (let result :=
     Server.handle Demo.libs Demo.env
                   (Server.mkState (UserModel.mkDb false [Demo.alice]) [] [] [])
                   (Session.mk None [] []) Server.GET_about in
   fst (fst result) = Server.Rejected /\
   snd result =
     Server.mkState (UserModel.mkDb false [Demo.alice]) [] [] []).
Proof.
  split.
  - apply (proj1 (about_page Demo.libs Demo.env Demo.state Demo.state
                    Demo.alice_session Demo.alice_session (Some Demo.alice)
                    (conj eq_refl eq_refl) (Server.reach_start _ _)
                    eq_refl)).
    reflexivity.
  - apply (proj2 (about_page Demo.libs Demo.env
                    (Server.mkState (UserModel.mkDb false [Demo.alice]) [] [] [])
                    (Server.mkState (UserModel.mkDb false [Demo.alice]) [] [] [])
                    (Session.mk None [] []) (Session.mk None [] []) None
                    (conj eq_refl eq_refl) (Server.reach_start _ _)
                    eq_refl)).
    reflexivity.
Defined.

(** ** The user collection *)

Section Collection.
Variable L : Libs.

(** What the schema asks of a stored user. *)
Definition user_in_order (u : User.t) : Prop :=
  User.name u <> "" /\
  User.email u <> "" /\
  UserModel.email_setter (User.email u) = User.email u /\
  User.password u <> "" /\
  In (User.role u) UserModel.role_enum.

Definition collection_in_order (users : list User.t) : Prop :=
  Forall user_in_order users /\ NoDup (map User.email users).

Lemma truthy_some (s : string) : truthy (Some s) = true -> s <> "".
Proof. simpl. intros H ->. discriminate H. Qed.

Lemma build_in_order (oid : string) (o : User.fields) (doc : User.t) :
  UserModel.build oid o = Ok doc -> user_in_order doc.
Proof.
  unfold UserModel.build, UserModel.required_ok.
  destruct (User.f_name o) as [n|] eqn:Hn; [|now rewrite !andb_false_l].
  destruct (truthy (Some n)) eqn:Tn; [|discriminate].
  destruct (truthy (Some (UserModel.email_setter (User.f_email o)))) eqn:Te;
    [|discriminate].
  destruct (truthy (Some (User.f_password o))) eqn:Tp; [|discriminate].
  destruct (array_includes _ _) eqn:Tr; [|discriminate].
  intros [= <-]. unfold user_in_order. cbn.
  repeat split; try (now apply truthy_some).
  - apply email_setter_idem.
  - unfold array_includes in Tr. apply existsb_exists in Tr as (m & Hin & Hm).
    apply String.eqb_eq in Hm. now subst m.
Qed.

Lemma save_in_order (d d' : UserModel.Db) (oid : string) (o : User.fields) :
  UserModel.save d oid o = Ok d' ->
  collection_in_order (UserModel.users d) ->
  collection_in_order (UserModel.users d').
Proof.
  intros S [Hall Hnd]. split.
  - revert S. unfold UserModel.save, bind.
    destruct (UserModel.build oid o) as [doc|] eqn:B; [|discriminate].
    destruct (negb _); [discriminate|].
    destruct (existsb _ _); [discriminate|].
    intros [= <-]. cbn [UserModel.users]. apply Forall_app. split; [exact Hall|].
    constructor; [exact (build_in_order _ _ _ B) | constructor].
  - exact (save_keeps_emails_unique _ _ _ _ S Hnd).
Qed.

(** The user collection after one request. *)
Lemma handle_collection (env : Server.Env) (st : Server.State)
    (s : Session.t) (r : Server.Request) :
  Server.db (snd (Server.handle L env st s r)) = Server.db st \/
  exists o,
    UserModel.save (Server.db st) (Server.oid env) o =
      Ok (Server.db (snd (Server.handle L env st s r))).
Proof.
  unfold Server.handle.
  destruct (Server.passport_session _ s) as [[user s1]|err]; [|now left].
  unfold Server.fill_locals.
  destruct r; cbn [Server.route]; try (now left).
  - destruct (Server.countDocuments _); now left.
  - destruct (Server.sent_ok env); now left.
  - destruct (Upload.single _ _ _ _ _) as [[stored|err] d]; [|now left].
    destruct (App.register L _ _ _ _ _) as [r' db'] eqn:R. cbn [snd Server.db].
    exact (register_saves L _ _ _ _ _ _ _ (or_introl R)).
  - destruct (App.isAuthenticated user); now left.
  - destruct (App.post_job _ _ _ _ _). now left.
  - destruct (App.isAuthenticated user); now left.
Qed.

Lemma reachable_collection (st0 st : Server.State) :
  collection_in_order (UserModel.users (Server.db st0)) ->
  Server.reachable_from L st0 st ->
  collection_in_order (UserModel.users (Server.db st)).
Proof.
  intros H0. induction 1 as [|st env s r _ IH|st up _ IH].
  - exact H0.
  - destruct (handle_collection env st s r) as [-> | [o S]]; [exact IH|].
    exact (save_in_order _ _ _ _ S IH).
  - exact IH.
Qed.

End Collection.

(** X21. The user collection stays in order.  If, when the process
    starts, every stored user has a name, a normalised (lower-case,
    trimmed) non-empty email, a password hash and one of the three roles,
    and no two users share an email, then the same holds in every state
    the process reaches: no request stores a user that breaks the schema
    or repeats an email. *)
Theorem users_stay_in_order :
  forall (L : Libs) (st0 st : Server.State),
    (forall u, In u (UserModel.users (Server.db st0)) ->
       User.name u <> "" /\ User.email u <> "" /\
       UserModel.email_setter (User.email u) = User.email u /\
       User.password u <> "" /\
       In (User.role u) ["jobseeker"; "employer"; "admin"]) ->
    NoDup (map User.email (UserModel.users (Server.db st0))) ->
    Server.reachable_from L st0 st ->
    (forall u, In u (UserModel.users (Server.db st)) ->
       User.name u <> "" /\ User.email u <> "" /\
       UserModel.email_setter (User.email u) = User.email u /\
       User.password u <> "" /\
       In (User.role u) ["jobseeker"; "employer"; "admin"]) /\
    NoDup (map User.email (UserModel.users (Server.db st))).
Proof.
  intros L st0 st Hall Hnd Hr.
  destruct (reachable_collection L st0 st) as [Hall' Hnd'].
  - split; [apply Forall_forall; exact Hall | exact Hnd].
  - exact Hr.
  - split; [|exact Hnd']. rewrite Forall_forall in Hall'. exact Hall'.
Qed.

Lemma users_stay_in_order_witness :
  let st :=
    snd (Server.handle Demo.libs Demo.env Demo.state Demo.visitor
           (Server.POST_register Demo.body_padded None)) in
  map User.email (UserModel.users (Server.db st)) =
    ["alice@x.com"; "bob@x.com"] /\
  NoDup (map User.email (UserModel.users (Server.db st))).
Proof.
  intros st. split; [reflexivity|].
  apply (users_stay_in_order Demo.libs Demo.state st).
  - intros u [<- | []]. cbn.
    repeat split; try discriminate. right. now left.
  - repeat constructor. intros [].
  - apply Server.reach_request. apply Server.reach_start.
Defined.

Lemma find_after_miss {A} (f : A -> bool) (l l' : list A) :
  find f l = None -> find f (l ++ l') = find f l'.
Proof.
  induction l as [|x l IH]; simpl; [reflexivity|].
  destruct (f x); [discriminate | exact IH].
Qed.

(** X22. What registration stores is what login checks.  After a
    successful registration with email e and password pw, credential
    verification with pw and any spelling of e that differs only in case
    returns the user just stored, provided the hashing library accepts a
    password against its own hash, and provided Mongoose casts the query
    with the schema's setters or e has no surrounding white space. *)
Theorem register_then_login :
  forall (L : Libs) (d d' : UserModel.Db) (body : RegisterBody.t)
         (file : option string) (oid salt e e' pw : string) (u : User.t)
         (r : reply),
    App.register L d body file oid salt = (r, d') ->
    UserModel.users d' = UserModel.users d ++ [u] ->
    RegisterBody.email body = Some e ->
    RegisterBody.password body = Some pw ->
    bcrypt_compare L pw (bcrypt_hash L pw salt) = true ->
    runSettersOnQuery L = true \/ trim e = e ->
    toLowerCase e' = toLowerCase e ->
    App.verify L d' e' pw = DoneUser u.
Proof.
  intros L d d' body file oid salt e e' pw u r R Hu He Hpw Hcmp Hcast Hcase.
  assert (Same : d' = d -> False).
  { intros ->. apply (f_equal (@List.length _)) in Hu.
    rewrite length_app in Hu. simpl in Hu. lia. }
  revert R. unfold App.register, bind, deref.
  destruct (negb _); [intros [= _ E]; now elim Same|].
  rewrite He, Hpw.
  unfold UserModel.findOne at 1.
  destruct (UserModel.reachable d) eqn:Hr; [|intros [= _ E]; now elim Same].
  destruct (find _ (UserModel.users d)) as [existing|] eqn:F;
    [intros [= _ E]; now elim Same|].
  destruct (UserModel.save d oid _) as [d1|err] eqn:S;
    [|intros [= _ E]; now elim Same].
  intros [= _ <-]. revert S. unfold UserModel.save, UserModel.build, bind.
  destruct (_ && _); [|discriminate]. cbn [User.f_name].
  destruct (RegisterBody.name body) as [n|]; [|discriminate].
  rewrite Hr. cbn [negb].
  destruct (existsb _ _); [discriminate|].
  intros [= <-]. cbn [UserModel.users] in Hu.
  apply app_inv_head in Hu. injection Hu as <-.
  unfold App.verify, UserModel.findOne.
  cbn [UserModel.reachable UserModel.users User.f_email User.f_password].
  rewrite Hcase, (find_after_miss _ _ _ F). cbn [find User.email].
  assert (Q : UserModel.cast_email_query (runSettersOnQuery L) (toLowerCase e) =
              UserModel.email_setter (toLowerCase e)).
  { unfold UserModel.cast_email_query.
    destruct Hcast as [-> | Ht]; [reflexivity|].
    destruct (runSettersOnQuery L); [reflexivity|].
    unfold UserModel.email_setter.
    now rewrite toLowerCase_idem, trim_toLowerCase, Ht. }
  rewrite Q, String.eqb_refl. cbn [User.password]. now rewrite Hcmp.
Qed.

Lemma register_then_login_witness :
  App.verify Demo.libs
    (snd (App.register Demo.libs Demo.db Demo.body_padded None "65a2" "salt"))
    " BOB@x.com " "pw123456" = DoneUser Demo.bob.
Proof.
  apply (register_then_login Demo.libs Demo.db _ Demo.body_padded None
           "65a2" "salt" " Bob@X.com " " BOB@x.com " "pw123456" Demo.bob
           (fst (App.register Demo.libs Demo.db Demo.body_padded None
                              "65a2" "salt"))).
  - reflexivity.
  - reflexivity.
  - reflexivity.
  - reflexivity.
  - reflexivity.
  - now left.
  - reflexivity.
Defined.
